(** * SignalGenerator: the report client [callN8N]

    A shallow embedding of the request/validate logic of
    [src/SignalGenerator.tsx] (function [callN8N], lines 98-215) and of the
    ticker and response-shape normalisation of the earliest revision of the
    same function (the untyped JavaScript revision, lines 7-37).

    Conventions of the embedding.
    - JavaScript values are the inductive [value]; objects are finite maps
      from property names to values (enumeration order of keys is not
      observed by [callN8N]), arrays are lists, numbers are binary64 floats.
    - Strings are [string]; each [ascii] stands for one code unit below 128
      (the ASCII fragment), on which [trim] and [toUpperCase] are exact.
    - A promise is its settlement: [result A] is either a thrown value or a
      value of type [A].
    - [fetch], [JSON.parse], [JSON.stringify] and number printing belong to
      the platform, not to the repository: they are the fields of the class
      [Platform].  [console.log] and [console.error] are not modelled. *)

From Stdlib Require Import PrimFloat Ascii DecimalString.
From stdpp Require Import gmap strings list fin_maps.

#[local] Set Warnings "-register-all".
#[local] Open Scope string_scope.

(** ** JavaScript string primitives used by [callN8N] *)

Module JsString.

(** WhiteSpace and LineTerminator code units below 128: TAB, LF, VT, FF,
    CR and SPACE. *)
Definition is_space (c : ascii) : bool :=
  let n := Ascii.nat_of_ascii c in
  (Nat.leb 9 n && Nat.leb n 13) || Nat.eqb n 32.

(** [c.toUpperCase()] on one code unit. *)
Definition upper_char (c : ascii) : ascii :=
  let n := Ascii.nat_of_ascii c in
  if Nat.leb 97 n && Nat.leb n 122 then Ascii.ascii_of_nat (n - 32) else c.

(** [s.toUpperCase()] *)
Fixpoint toUpperCase (s : string) : string :=
  match s with
  | EmptyString => EmptyString
  | String c s' => String (upper_char c) (toUpperCase s')
  end.

Fixpoint trimStart (s : string) : string :=
  match s with
  | EmptyString => EmptyString
  | String c s' => if is_space c then trimStart s' else s
  end.

Fixpoint trimEnd (s : string) : string :=
  match s with
  | EmptyString => EmptyString
  | String c s' =>
      match trimEnd s' with
      | EmptyString => if is_space c then EmptyString else String c EmptyString
      | r => String c r
      end
  end.

(** [s.trim()] *)
Definition trim (s : string) : string := trimEnd (trimStart s).

(** [s.includes(c)] for a one-character needle [c]. *)
Fixpoint includes (c : ascii) (s : string) : bool :=
  match s with
  | EmptyString => false
  | String d s' => Ascii.eqb d c || includes c s'
  end.

(** Number of occurrences of the code unit [c] in [s]. *)
Fixpoint occurrences (c : ascii) (s : string) : nat :=
  match s with
  | EmptyString => 0
  | String d s' => (if Ascii.eqb d c then 1 else 0) + occurrences c s'
  end.

(** [s.split(c)] for a one-character separator [c]: the empty string
    splits into one empty piece. *)
Fixpoint split (sep : ascii) (s : string) : list string :=
  match s with
  | EmptyString => [EmptyString]
  | String c s' =>
      if Ascii.eqb c sep then EmptyString :: split sep s'
      else match split sep s' with
           | [] => [String c EmptyString]
           | piece :: pieces => String c piece :: pieces
           end
  end.

(** [l.join(sep)] on an array of strings. *)
Fixpoint join (sep : string) (l : list string) : string :=
  match l with
  | [] => EmptyString
  | [s] => s
  | s :: l' => s +:+ sep +:+ join sep l'
  end.

(** Decimal numeral of a natural number (array indices, HTTP status). *)
Definition of_nat (n : nat) : string :=
  NilEmpty.string_of_uint (Nat.to_uint n).

Definition is_empty (s : string) : bool :=
  match s with EmptyString => true | _ => false end.

End JsString.

(** ** JavaScript values *)

Inductive value : Type :=
  | VUndefined
  | VNull
  | VBool (b : bool)
  | VNum (x : float)
  | VStr (s : string)
  | VArr (l : list value)
  | VObj (m : gmap string value).

(** Errors that are instances of [Error]: those built with [new Error(msg)]
    (by [callN8N], or by the platform when [fetch] rejects), and the
    [TypeError]s the engine raises on a property read of [undefined]/[null],
    on a call of something that is not a function, or on the conversion to
    a string of an object that has no usable [toString] or [valueOf].  The
    message of an engine [TypeError] is engine-defined; only its cause is
    recorded. *)
Inductive js_error : Type :=
  | Err (message : string)
  | NullishAccess (prop : string)
  | NotCallable (prop : string)
  | NotConvertible.

(** Anything [throw] can raise or a promise can reject with. *)
Inductive thrown : Type :=
  | ThrownError (e : js_error)
  | ThrownValue (v : value).

Definition result (A : Type) : Type := thrown + A.

#[global] Instance result_ret : MRet result := fun A a => inr a.
#[global] Instance result_bind : MBind result :=
  fun A B f m => match m with inl t => inl t | inr a => f a end.
#[global] Instance result_fmap : FMap result :=
  fun A B f m => match m with inl t => inl t | inr a => inr (f a) end.

Definition throw {A : Type} (e : js_error) : result A := inl (ThrownError e).

(** [Array.prototype.map] with a callback that may throw: elements are
    visited left to right and the first exception aborts the loop. *)
Fixpoint map_result {A B : Type} (f : A -> result B) (l : list A) : result (list B) :=
  match l with
  | [] => mret []
  | x :: l' => y ← f x; ys ← map_result f l'; mret (y :: ys)
  end.

(** ToBoolean: [undefined], [null], [false], [0], [-0], [NaN] and the empty
    string are falsy. *)
Definition truthy (v : value) : bool :=
  match v with
  | VUndefined | VNull => false
  | VBool b => b
  | VNum x => negb (PrimFloat.is_zero x || PrimFloat.is_nan x)
  | VStr s => negb (JsString.is_empty s)
  | VArr _ | VObj _ => true
  end.

(** [v === 0] *)
Definition strict_eq_zero (v : value) : bool :=
  match v with
  | VNum x => PrimFloat.eqb x 0%float
  | _ => false
  end.

(** [a || b] on values. *)
Definition js_or (a b : value) : value := if truthy a then a else b.

(** [v[0]]: the first element of an array, [undefined] when it is empty. *)
Definition first_element (l : list value) : value := default VUndefined (head l).

(** [v.k] for the property names [callN8N] reads ([error], [details],
    [results], [current_price]).  None of them is a built-in property of
    strings, numbers, booleans or arrays, so only objects can carry them;
    reading any property of [undefined] or [null] is a [TypeError]. *)
Definition get (k : string) (v : value) : result value :=
  match v with
  | VUndefined | VNull => throw (NullishAccess k)
  | VObj m => mret (default VUndefined (m !! k))
  | _ => mret VUndefined
  end.

(** [v?.k] *)
Definition get_opt (k : string) (v : value) : value :=
  match v with
  | VObj m => default VUndefined (m !! k)
  | _ => VUndefined
  end.

(** The own enumerable properties copied by an object spread [{...v}]:
    index keys for arrays and strings, nothing for the other primitives. *)
Definition indexed (l : list value) : gmap string value :=
  list_to_map (imap (fun i x => (JsString.of_nat i, x)) l).

Definition spread (v : value) : gmap string value :=
  match v with
  | VObj m => m
  | VArr l => indexed l
  | VStr s => indexed ((fun c => VStr (String c EmptyString)) <$> String.list_ascii_of_string s)
  | _ => ∅
  end.

(** ToString of a value, as used by a template literal [`${v}`].

    An object is converted by its [toString] method, then by [valueOf].
    A parsed object inherits both from [Object.prototype], which print
    ["[object Object]"], unless it has an own property [toString]: that
    one, a JSON value, is not callable, the inherited [valueOf] returns the
    object itself, and the conversion throws a [TypeError].  An array is
    printed by [join]: its elements converted in order, [undefined] and
    [null] as the empty string, separated by commas. *)
Section ToString.
Variable Number_toString : float -> string.

Fixpoint ToString (v : value) : result string :=
  match v with
  | VUndefined => mret "undefined"
  | VNull => mret "null"
  | VBool true => mret "true"
  | VBool false => mret "false"
  | VNum x => mret (Number_toString x)
  | VStr s => mret s
  | VArr l =>
      JsString.join "," <$>
        ((fix elements (l : list value) : result (list string) :=
            match l with
            | [] => mret []
            | VUndefined :: l' => ss ← elements l'; mret (EmptyString :: ss)
            | VNull :: l' => ss ← elements l'; mret (EmptyString :: ss)
            | x :: l' => s ← ToString x; ss ← elements l'; mret (s :: ss)
            end) l)
  | VObj m =>
      match m !! "toString" with
      | Some _ => throw NotConvertible
      | None => mret "[object Object]"
      end
  end.
End ToString.

(** ** The platform: network and JSON *)

Record request : Type := {
  url : string;
  method : string;
  headers : list (string * string);
  body : string;
}.

(** A [Response]: [res.status], and the settlement of [res.text()]. *)
Record response : Type := {
  status : nat;
  text : result string;
}.

(** [res.ok]: the status is in the range 200-299. *)
Definition ok (res : response) : bool :=
  Nat.leb 200 (status res) && Nat.leb (status res) 299.

Class Platform : Type := {
  (** [fetch i req]: settlement of the call [fetch(url, init)] that is the
      [i]-th network call [callN8N] makes (counted from 0). *)
  fetch : nat -> request -> result response;
  (** [JSON.parse(s)]; [None] when it throws a [SyntaxError]. *)
  JSON_parse : string -> option value;
  (** [JSON.stringify(v)] *)
  JSON_stringify : value -> string;
  (** Number::toString *)
  Number_toString : float -> string;
}.

(** ** [callN8N] of [src/SignalGenerator.tsx] *)

Record Payload : Type := {
  tickers : string;
  format : string;
  timeHorizon : string;
  riskTolerance : string;
  exchange : string;
}.

(** The callback of the first [map] (lines 102-106). *)
Definition normalize_ticker (exchange : string) (t : string) : string :=
  let trimmed := JsString.toUpperCase (JsString.trim t) in
  if JsString.includes "." trimmed then trimmed
  else trimmed +:+ "." +:+ exchange.

(** Lines 100-107: the [tickers] constant. *)
Definition normalize_tickers (payload : Payload) : string :=
  JsString.join ","
    (normalize_ticker (exchange payload) <$> JsString.split "," (tickers payload)).

Definition primaryUrl : string :=
  "https://anandshinde75.app.n8n.cloud/webhook/signalGenerator".
Definition fallbackUrl : string := "/webhook/signalGenerator".
Definition urls : list string := [primaryUrl; fallbackUrl].

(** Lines 112-117. *)
Definition requestBody (payload : Payload) : value :=
  VObj (<["Ticker " := VStr (normalize_tickers payload)]>
       (<["Time Horizon" := VStr (timeHorizon payload)]>
       (<["Risk Tolerance" := VStr (riskTolerance payload)]>
       (<["Output Format" := VStr "Detailed"]> ∅)))).

Definition invalid_price_reason : string :=
  "Invalid or delisted symbol - no price data available".

(** [{ ...r, isInvalid: true, invalidReason: reason }] *)
Definition mark_invalid (r : value) (reason : value) : value :=
  VObj (<["invalidReason" := reason]> (<["isInvalid" := VBool true]> (spread r))).

(** Lines 184-198: the callback of [result.results.map]. *)
Definition validate_record (r : value) : result value :=
  error ← get "error" r;
  if truthy error then
    details ← get "details" r;
    mret (mark_invalid r (js_or details error))
  else
    current_price ← get "current_price" r;
    if negb (truthy current_price) || strict_eq_zero current_price then
      mret (mark_invalid r (VStr invalid_price_reason))
    else mret r.

(** [x.map(f)] on a value [x] read from property [k]: only arrays have a
    [map] method. *)
Definition call_map (k : string) (f : value -> result value) (x : value) : result value :=
  match x with
  | VArr l => VArr <$> map_result f l
  | _ => throw (NotCallable k)
  end.

(** [o.k = x], used on line 184 only after [o.k] was read and found truthy,
    which makes [o] an object. *)
Definition set_prop (k : string) (x : value) (o : value) : value :=
  match o with
  | VObj m => VObj (<[k := x]> m)
  | _ => o
  end.

Section CallN8N.
Context {P : Platform}.

(** Lines 164-174: the object literal, once its template literal has been
    evaluated to [invalidReason]. *)
Definition invalid_ticker_fields (invalidReason : string) (symbol : string) : value :=
  VObj (<["symbol" := VStr (JsString.trim symbol)]>
       (<["current_price" := VNum 0%float]>
       (<["signal" := VStr "SELL/AVOID"]>
       (<["confidence" := VStr "0%"]>
       (<["entry_price" := VNum 0%float]>
       (<["target_price" := VNum 0%float]>
       (<["stop_loss" := VNum 0%float]>
       (<["isInvalid" := VBool true]>
       (<["invalidReason" := VStr invalidReason]>
        ∅))))))))).

(** Lines 164-174: the callback of [tickerSymbols.map]; the template
    literal of line 173 converts [errorMsg] to a string, which may throw. *)
Definition invalid_ticker_record (errorMsg : value) (symbol : string) : result value :=
  text ← ToString Number_toString errorMsg;
  mret (invalid_ticker_fields ("Invalid ticker: " +:+ text) symbol).

(** Lines 161-175. *)
Definition error_response (tickers : string) (errorMsg : value) : result value :=
  let tickerSymbols := JsString.split "," tickers in
  records ← map_result (invalid_ticker_record errorMsg) tickerSymbols;
  mret (VObj (<["results" := VArr records]> ∅)).

(** Lines 179-202: normal response handling. *)
Definition normal_response (parsed : value) : result value :=
  let result := match parsed with
                | VArr l => first_element l
                | _ => parsed
                end in
  results ← get "results" result;
  if truthy results then
    mapped ← call_map "map" validate_record results;
    mret (set_prop "results" mapped result)
  else mret result.

(** Lines 158-202: what one attempt returns once the body is parsed;
    [tickers] is the normalised ticker string of lines 100-107. *)
Definition handle_parsed (tickers : string) (parsed : value) : result value :=
  match parsed with
  | VArr l =>
      if truthy (get_opt "error" (first_element l)) then
        errorMsg ← get "error" (first_element l);
        error_response tickers errorMsg
      else normal_response parsed
  | _ => normal_response parsed
  end.

Definition empty_response_message : string :=
  "Empty response from webhook. Make sure your n8n workflow returns data.".
Definition invalid_json_message : string :=
  "Invalid JSON response from webhook. Check your n8n workflow output.".

(** Line 145: [!responseText || responseText.trim() === ''] *)
Definition blank (responseText : string) : bool :=
  JsString.is_empty responseText || JsString.is_empty (JsString.trim responseText).

(** Lines 129-202: the body of the [try] block for the [i]-th URL. *)
Definition attempt (tickers : string) (i : nat) (req : request) : result value :=
  res ← fetch i req;
  if negb (ok res) then
    errorText ← text res;
    throw (Err ("HTTP " +:+ JsString.of_nat (status res) +:+ ": " +:+
                (if JsString.is_empty errorText then "Failed to fetch data"
                 else errorText)))
  else
    responseText ← text res;
    if blank responseText then throw (Err empty_response_message)
    else match JSON_parse responseText with
         | None => throw (Err invalid_json_message)
         | Some parsed => handle_parsed tickers parsed
         end.

(** Lines 129-133: the request sent to [url]. *)
Definition make_request (payload : Payload) (url : string) : request :=
  {| url := url;
     method := "POST";
     headers := [("Content-Type", "application/json")];
     body := JSON_stringify (requestBody payload) |}.

(** Line 204: [error instanceof Error ? error : new Error('Unknown error')] *)
Definition as_Error (t : thrown) : js_error :=
  match t with
  | ThrownError e => e
  | ThrownValue _ => Err "Unknown error"
  end.

(** Lines 124-214: the loop over the remaining URLs, from index [i], with
    the current [lastError]; returns the requests issued, in order, and
    the settlement of the promise. *)
Fixpoint try_urls (payload : Payload) (remaining : list string) (i : nat)
    (lastError : option js_error) : list request * result value :=
  match remaining with
  | [] => ([], throw (default (Err "All endpoints failed") lastError))
  | url :: remaining' =>
      let req := make_request payload url in
      match attempt (normalize_tickers payload) i req with
      | inr res => ([req], inr res)
      | inl error =>
          let '(log, settled) :=
            try_urls payload remaining' (S i) (Some (as_Error error)) in
          (req :: log, settled)
      end
  end.

Definition callN8N (payload : Payload) : list request * result value :=
  try_urls payload urls 0 None.

End CallN8N.

(** ** The earliest revision of [callN8N] (untyped JavaScript, lines 7-37) *)

Module Rev0.

(** Lines 9-13: as above, but joined with a comma and a space. *)
Definition normalize_tickers (payload : Payload) : string :=
  JsString.join ", "
    (normalize_ticker (exchange payload) <$> JsString.split "," (tickers payload)).

(** Lines 29-37: handling of the response formats. *)
Definition normalize_shape (data : value) : result value :=
  match data with
  | VArr l =>
      if truthy (get_opt "results" (first_element l)) then mret (first_element l)
      else mret (VObj (<["results" := data]> ∅))
  | _ =>
      results ← get "results" data;
      if truthy results then mret data
      else mret (VObj (<["results" := VArr [data]]> ∅))
  end.

End Rev0.

(** [v] is an object (a record of a report, as opposed to a primitive or
    an array). *)
Definition is_object (v : value) : Prop :=
  match v with VObj _ => True | _ => False end.

(** ** The four ways an endpoint fails before its body is parsed *)

Inductive failure : Type :=
  | NetworkError (t : thrown)
  | BadStatus (code : nat) (errorText : string)
  | EmptyBody
  | MalformedJSON.

(** [fails_with i req f]: the [i]-th call, sending [req], fails in way [f]:
    [fetch] or [res.text()] rejects with [t]; the status is not 2xx; the
    body is empty or blank; the body is not JSON. *)
Definition fails_with {P : Platform} (i : nat) (req : request) (f : failure) : Prop :=
  match f with
  | NetworkError t =>
      fetch i req = inl t
      \/ exists res : response, fetch i req = inr res /\ text res = inl t
  | BadStatus code errorText =>
      exists res : response,
        fetch i req = inr res /\ ok res = false
        /\ status res = code /\ text res = inr errorText
  | EmptyBody =>
      exists (res : response) (s : string),
        fetch i req = inr res /\ ok res = true
        /\ text res = inr s /\ blank s = true
  | MalformedJSON =>
      exists (res : response) (s : string),
        fetch i req = inr res /\ ok res = true
        /\ text res = inr s /\ blank s = false /\ JSON_parse s = None
  end.

(** What the [try] block throws in each case (lines 129-156). *)
Definition failure_thrown (f : failure) : thrown :=
  match f with
  | NetworkError t => t
  | BadStatus code errorText =>
      ThrownError
        (Err ("HTTP " +:+ JsString.of_nat code +:+ ": " +:+
              (if JsString.is_empty errorText then "Failed to fetch data"
               else errorText)))
  | EmptyBody => ThrownError (Err empty_response_message)
  | MalformedJSON => ThrownError (Err invalid_json_message)
  end.

(** [fetch] answered 2xx with a non-blank body that parses to [parsed]. *)
Definition answers {P : Platform} (i : nat) (req : request) (parsed : value) : Prop :=
  exists (res : response) (s : string),
    fetch i req = inr res /\ ok res = true
    /\ text res = inr s /\ blank s = false /\ JSON_parse s = Some parsed.

(** ** Stub platforms for the worked examples

    A stub answers the primary URL with [primary] and any other URL with
    [fallback]; its [JSON.parse] knows the finitely many bodies listed in
    [bodies], and its [JSON.stringify] prints the request body of lines
    112-117 (field values are assumed free of quotes, backslashes and
    control characters, as they are in the examples). *)

Definition dq : string := String (Ascii.ascii_of_nat 34) EmptyString.

Definition json_field (k : string) (v : value) : string :=
  dq +:+ k +:+ dq +:+ ":" +:+
  match v with VStr s => dq +:+ s +:+ dq | _ => "null" end.

Definition stub_stringify (v : value) : string :=
  "{" +:+ JsString.join ","
            ((fun k => json_field k (get_opt k v)) <$>
             ["Ticker "; "Time Horizon"; "Risk Tolerance"; "Output Format"])
      +:+ "}".

Fixpoint stub_parse (bodies : list (string * value)) (s : string) : option value :=
  match bodies with
  | [] => None
  | (s', v) :: bodies' => if String.eqb s' s then Some v else stub_parse bodies' s
  end.

Definition stub (primary fallback : result response)
    (bodies : list (string * value)) : Platform :=
  {| fetch := fun _ req =>
       if String.eqb (url req) primaryUrl then primary else fallback;
     JSON_parse := stub_parse bodies;
     JSON_stringify := stub_stringify;
     Number_toString := fun x => if PrimFloat.is_zero x then "0" else "100" |}.

Definition http (code : nat) (s : string) : result response :=
  inr {| status := code; text := inr s |}.

(** [fetch] rejecting: no connection. *)
Definition unreachable : result response :=
  inl (ThrownError (Err "Failed to fetch")).

Definition sample_payload (input : string) : Payload :=
  {| tickers := input; format := "Detailed"; timeHorizon := "Short-term";
     riskTolerance := "Moderate"; exchange := "NS" |}.

(** The body [[{"error":"bad ticker"}]] and its parse. *)
Definition error_body_text : string :=
  "[{" +:+ dq +:+ "error" +:+ dq +:+ ":" +:+ dq +:+ "bad ticker" +:+ dq +:+ "}]".
Definition error_body : value :=
  VArr [VObj (<["error" := VStr "bad ticker"]> ∅)].

(** Two records of a report: one without price data, one priced at 100. *)
Definition unpriced_record : gmap string value :=
  <["symbol" := VStr "AAA.NS"]> (<["current_price" := VNum 0%float]>
  (<["signal" := VStr "HOLD"]> ∅)).
Definition priced_record : gmap string value :=
  <["symbol" := VStr "BBB.NS"]> (<["current_price" := VNum 100%float]>
  (<["signal" := VStr "BUY"]> (<["confidence" := VNum 0.75%float]> ∅))).

Definition sample_report : gmap string value :=
  <["results" := VArr [VObj unpriced_record; VObj priced_record]]> ∅.

(** A platform with no network: every [fetch] rejects. *)
Definition offline : Platform := stub unreachable unreachable [].

(** Sample bodies: [[{"error":""}]], [[]], and a two-record report. *)
Definition json_key (k : string) : string := dq +:+ k +:+ dq +:+ ":".
Definition json_str (s : string) : string := dq +:+ s +:+ dq.

Definition empty_error_body_text : string :=
  "[{" +:+ json_key "error" +:+ dq +:+ dq +:+ "}]".
Definition empty_error_body : value :=
  VArr [VObj (<["error" := VStr EmptyString]> ∅)].

Definition report_body_text : string :=
  "{" +:+ json_key "results" +:+ "[{"
  +:+ json_key "symbol" +:+ json_str "AAA.NS" +:+ ","
  +:+ json_key "current_price" +:+ "0,"
  +:+ json_key "signal" +:+ json_str "HOLD" +:+ "},{"
  +:+ json_key "symbol" +:+ json_str "BBB.NS" +:+ ","
  +:+ json_key "current_price" +:+ "100,"
  +:+ json_key "signal" +:+ json_str "BUY" +:+ ","
  +:+ json_key "confidence" +:+ "0.75}]}".

Definition known_bodies : list (string * value) :=
  [(error_body_text, error_body);
   (empty_error_body_text, empty_error_body);
   ("[]", VArr []);
   (report_body_text, VObj sample_report)].

(** A stub whose two endpoints settle as given. *)
Definition server (primary fallback : result response) : Platform :=
  stub primary fallback known_bodies.

(** ** The rest of the earliest revision of [callN8N] (lines 7-69) *)

(** [v?.[0]]: the first element of an array, the first code unit of a
    string, the property ["0"] of an object; [undefined] otherwise.  It is
    [v[0]] whenever [v] is neither [undefined] nor [null]. *)
Definition index0_opt (v : value) : value :=
  match v with
  | VArr l => first_element l
  | VStr (String c _) => VStr (String c EmptyString)
  | VObj m => default VUndefined (m !! "0")
  | _ => VUndefined
  end.

(** [v === s] for a string literal [s]. *)
Definition strict_eq_string (v : value) (s : string) : bool :=
  match v with
  | VStr s' => String.eqb s' s
  | _ => false
  end.

Module Rev0Call.

Definition N8N_WEBHOOK_URL : string :=
  "http://localhost:5678/webhook/signalGenerator".

(** Lines 15-20. *)
Definition n8nPayload (payload : Payload) : value :=
  VObj (<["Ticker " := VStr (Rev0.normalize_tickers payload)]>
       (<["Time Horizon" := VStr (timeHorizon payload)]>
       (<["Risk Tolerance" := VStr (riskTolerance payload)]>
       (<["Output Format" := VStr (format payload)]> ∅)))).

(** Lines 47-48: [r.Price_Data?.chart?.result?.[0]?.meta], for an [r] that
    is neither [undefined] nor [null]. *)
Definition price_meta (r : value) : value :=
  get_opt "meta"
    (index0_opt (get_opt "result" (get_opt "chart" (get_opt "Price_Data" r)))).

Definition mutual_fund_text : string :=
  " is a mutual fund, not a stock. For State Bank of India, use SBIN instead of SBI.".
Definition not_a_stock_text : string :=
  " is not a valid NSE/BSE stock symbol. Please check the ticker name.".

Section Call.
Context {P : Platform}.

(** The message of the [SyntaxError] that [response.json()] rejects with
    on a body that is not JSON; it is engine-defined. *)
Variable SyntaxError_message : string -> string.

(** [`"${r.symbol || meta.symbol}"`] followed by [rest]. *)
Definition quoted_symbol (r meta : value) (rest : string) : result string :=
  symbol ← ToString Number_toString
             (js_or (get_opt "symbol" r) (get_opt "symbol" meta));
  mret (dq +:+ symbol +:+ dq +:+ rest).

(** Lines 41-65: the callback of [result.results.map]. *)
Definition validate_record (r : value) : result value :=
  error ← get "error" r;
  if truthy error then
    details ← get "details" r;
    mret (mark_invalid r (js_or details error))
  else
    let meta := price_meta r in
    if truthy meta then
      if strict_eq_string (get_opt "instrumentType" meta) "MUTUALFUND" then
        invalidReason ← quoted_symbol r meta mutual_fund_text;
        mret (mark_invalid r (VStr invalidReason))
      else if strict_eq_string (get_opt "exchangeName" meta) "YHD"
              || negb (truthy (get_opt "currency" meta)) then
        invalidReason ← quoted_symbol r meta not_a_stock_text;
        mret (mark_invalid r (VStr invalidReason))
      else mret r
    else mret r.

(** Lines 39-66. *)
Definition validate (shaped : value) : result value :=
  results ← get "results" shaped;
  if truthy results then
    mapped ← call_map "map" validate_record results;
    mret (set_prop "results" mapped shaped)
  else mret shaped.

(** Line 27: [response.json()]. *)
Definition json (res : response) : result value :=
  s ← text res;
  match JSON_parse s with
  | Some data => mret data
  | None => throw (Err (SyntaxError_message s))
  end.

(** Lines 21-25. *)
Definition make_request (payload : Payload) : request :=
  {| url := N8N_WEBHOOK_URL;
     method := "POST";
     headers := [("Content-Type", "application/json")];
     body := JSON_stringify (n8nPayload payload) |}.

(** Lines 29-68: from the parsed body to the returned value. *)
Definition handle_data (data : value) : result value :=
  shaped ← Rev0.normalize_shape data;
  validate shaped.

(** Lines 7-69: the request issued and the settlement of the promise. *)
Definition callN8N (payload : Payload) : list request * result value :=
  let req := make_request payload in
  ([req],
   response ← fetch 0 req;
   if negb (ok response) then
     throw (Err ("Server error: " +:+ JsString.of_nat (status response)))
   else
     data ← json response;
     handle_data data).

End Call.

End Rev0Call.

(** ** The submit handler of [SignalUI] ([src/SignalGenerator.tsx], lines
    508-565)

    The component state is the record [State]; [run s] is the handler
    started in a render with state [s]: it returns the requests issued and
    the state once the handler has finished, every [set...] call applied
    in program order. *)

Module SignalUI.

Record State : Type := {
  input : string;
  format : string;
  timeH : string;
  riskT : string;
  exchange : string;
  loading : bool;
  error : string;
  valErr : string;
  toast : option string;
  data : option value;
  expanded : value;
  showDisclaimer : bool;
}.

(** Lines 510-521: the initial values of the [useState] hooks. *)
Definition initial : State :=
  {| input := "RELIANCE"; format := "Detailed"; timeH := "Medium-term";
     riskT := "Moderate"; exchange := "NS"; loading := false;
     error := EmptyString; valErr := EmptyString; toast := None; data := None;
     expanded := VNull; showDisclaimer := false |}.

Definition setInput (v : string) (s : State) : State :=
  {| input := v; format := format s; timeH := timeH s; riskT := riskT s;
     exchange := exchange s; loading := loading s; error := error s;
     valErr := valErr s; toast := toast s; data := data s;
     expanded := expanded s; showDisclaimer := showDisclaimer s |}.

Definition setLoading (v : bool) (s : State) : State :=
  {| input := input s; format := format s; timeH := timeH s; riskT := riskT s;
     exchange := exchange s; loading := v; error := error s;
     valErr := valErr s; toast := toast s; data := data s;
     expanded := expanded s; showDisclaimer := showDisclaimer s |}.

Definition setError (v : string) (s : State) : State :=
  {| input := input s; format := format s; timeH := timeH s; riskT := riskT s;
     exchange := exchange s; loading := loading s; error := v;
     valErr := valErr s; toast := toast s; data := data s;
     expanded := expanded s; showDisclaimer := showDisclaimer s |}.

Definition setValErr (v : string) (s : State) : State :=
  {| input := input s; format := format s; timeH := timeH s; riskT := riskT s;
     exchange := exchange s; loading := loading s; error := error s;
     valErr := v; toast := toast s; data := data s;
     expanded := expanded s; showDisclaimer := showDisclaimer s |}.

Definition setToast (v : option string) (s : State) : State :=
  {| input := input s; format := format s; timeH := timeH s; riskT := riskT s;
     exchange := exchange s; loading := loading s; error := error s;
     valErr := valErr s; toast := v; data := data s;
     expanded := expanded s; showDisclaimer := showDisclaimer s |}.

Definition setData (v : option value) (s : State) : State :=
  {| input := input s; format := format s; timeH := timeH s; riskT := riskT s;
     exchange := exchange s; loading := loading s; error := error s;
     valErr := valErr s; toast := toast s; data := v;
     expanded := expanded s; showDisclaimer := showDisclaimer s |}.

Definition setExpanded (v : value) (s : State) : State :=
  {| input := input s; format := format s; timeH := timeH s; riskT := riskT s;
     exchange := exchange s; loading := loading s; error := error s;
     valErr := valErr s; toast := toast s; data := data s;
     expanded := v; showDisclaimer := showDisclaimer s |}.

Definition empty_input_message : string := "Please enter at least one ticker".
Definition unknown_error_message : string := "An unknown error occurred".

Section Run.
Context {P : Platform}.

(** The message of a [TypeError] raised by the engine; it is
    engine-defined. *)
Variable TypeError_message : js_error -> string.

(** [e.message] *)
Definition message (e : js_error) : string :=
  match e with
  | Err m => m
  | _ => TypeError_message e
  end.

(** Lines 554-557: the [then] part of the [try] block. *)
Definition on_response (res : value) (s : State) : State :=
  if truthy (get_opt "results" res) then
    let s' := setData (Some res) s in
    let first := index0_opt (get_opt "results" res) in
    if truthy first then setExpanded (get_opt "symbol" first) s' else s'
  else s.

(** Lines 558-562: the [catch] block. *)
Definition on_rejection (e : thrown) (s : State) : State :=
  let errorMessage := match e with
                      | ThrownError err => message err
                      | ThrownValue _ => unknown_error_message
                      end in
  setToast (Some errorMessage) (setError errorMessage s).

(** Lines 532-565. *)
Definition run (s : State) : list request * State :=
  let s1 := setValErr EmptyString (setError EmptyString s) in
  if JsString.is_empty (JsString.trim (input s)) then
    ([], setValErr empty_input_message s1)
  else
    let s2 := setExpanded VNull (setData None (setLoading true s1)) in
    let '(log, settled) :=
      callN8N (Build_Payload (input s) (format s) (timeH s) (riskT s) (exchange s)) in
    let s3 := match settled with
              | inr res => on_response res s2
              | inl e => on_rejection e s2
              end in
    (log, setLoading false s3).

End Run.

End SignalUI.

(** ** Vocabulary of the further properties *)

(** Every code unit of [s] is white space ([s] may be empty). *)
Definition all_space (s : string) : Prop :=
  Forall (fun c => JsString.is_space c = true) (String.list_ascii_of_string s).

(** [v] is [undefined] or [null]. *)
Definition nullish (v : value) : bool :=
  match v with
  | VUndefined | VNull => true
  | _ => false
  end.

(** Line 179: the value taken as [result], [parsed[0]] for an array. *)
Definition body_record (parsed : value) : value :=
  match parsed with
  | VArr l => first_element l
  | _ => parsed
  end.

(** Line 159: [Array.isArray(parsed) && parsed[0]?.error], as a boolean. *)
Definition is_error_array (parsed : value) : bool :=
  match parsed with
  | VArr l => truthy (get_opt "error" (first_element l))
  | _ => false
  end.

(** The payload that [run] hands to [callN8N] (lines 546-552). *)
Definition submitted (s : SignalUI.State) : Payload :=
  Build_Payload (SignalUI.input s) (SignalUI.format s) (SignalUI.timeH s)
    (SignalUI.riskT s) (SignalUI.exchange s).

(** [s'] shows the same form as [s]: the five inputs and the disclaimer
    toggle are as they were. *)
Definition same_form (s s' : SignalUI.State) : Prop :=
  SignalUI.input s' = SignalUI.input s
  /\ SignalUI.format s' = SignalUI.format s
  /\ SignalUI.timeH s' = SignalUI.timeH s
  /\ SignalUI.riskT s' = SignalUI.riskT s
  /\ SignalUI.exchange s' = SignalUI.exchange s
  /\ SignalUI.showDisclaimer s' = SignalUI.showDisclaimer s.

(** The body of a single flat record, [priced_record] not wrapped in
    [results]. *)
Definition flat_body_text : string :=
  "{" +:+ json_key "symbol" +:+ json_str "BBB.NS" +:+ ","
  +:+ json_key "current_price" +:+ "100,"
  +:+ json_key "signal" +:+ json_str "BUY" +:+ ","
  +:+ json_key "confidence" +:+ "0.75}".

(** A stub that answers every request with the flat record. *)
Definition flat_server : Platform :=
  stub (http 200 flat_body_text) (http 200 flat_body_text)
    [(flat_body_text, VObj priced_record)].

(** [printable v]: the conversion of [v] to a string does not throw: [v]
    is not an object with an own [toString] property and, if it is an
    array, so are its elements. *)
Fixpoint printable (v : value) : bool :=
  match v with
  | VArr l =>
      (fix all (l : list value) : bool :=
         match l with
         | [] => true
         | x :: l' => printable x && all l'
         end) l
  | VObj m => match m !! "toString" with Some _ => false | None => true end
  | _ => true
  end.

(** [served payload parsed]: [parsed] is the body of the last answer
    [callN8N] processes: the primary endpoint's, or the fallback's after
    the primary attempt has thrown. *)
Definition served {P : Platform} (payload : Payload) (parsed : value) : Prop :=
  answers 0 (make_request payload primaryUrl) parsed
  \/ ((exists t1 : thrown,
         attempt (normalize_tickers payload) 0 (make_request payload primaryUrl)
         = inl t1)
      /\ answers 1 (make_request payload fallbackUrl) parsed).

(** The body [[{"error":{"toString":1}}]]: an error array whose error is
    an object that cannot be converted to a string. *)
Definition unprintable_error_body_text : string :=
  "[{" +:+ json_key "error" +:+ "{" +:+ json_key "toString" +:+ "1}}]".
Definition unprintable_error_body : value :=
  VArr [VObj (<["error" := VObj (<["toString" := VNum 1%float]> ∅)]> ∅)].

(** A stub whose primary endpoint answers with that body and whose
    fallback is unreachable. *)
Definition unprintable_server : Platform :=
  stub (http 200 unprintable_error_body_text) unreachable
    [(unprintable_error_body_text, unprintable_error_body)].

(** * Properties *)

(** ** Strings *)

Lemma upper_char_is_dot (d : ascii) :
  Ascii.eqb (JsString.upper_char d) "." = Ascii.eqb d ".".
Proof. destruct d as [[] [] [] [] [] [] [] []]; reflexivity. Qed.

Lemma space_is_not_dot (d : ascii) :
  JsString.is_space d = true -> Ascii.eqb d "." = false.
Proof. destruct d as [[] [] [] [] [] [] [] []]; vm_compute; congruence. Qed.

Lemma includes_toUpperCase (s : string) :
  JsString.includes "." (JsString.toUpperCase s) = JsString.includes "." s.
Proof.
  induction s as [|d s IH]; simpl; [reflexivity|].
  rewrite upper_char_is_dot, IH. reflexivity.
Qed.

Lemma includes_trimStart (s : string) :
  JsString.includes "." (JsString.trimStart s) = JsString.includes "." s.
Proof.
  induction s as [|d s IH]; simpl; [reflexivity|].
  destruct (JsString.is_space d) eqn:Hd; [|reflexivity].
  rewrite (space_is_not_dot d Hd), IH. reflexivity.
Qed.

Lemma includes_trimEnd (s : string) :
  JsString.includes "." (JsString.trimEnd s) = JsString.includes "." s.
Proof.
  induction s as [|d s IH]; simpl; [reflexivity|].
  destruct (JsString.trimEnd s) as [|e r] eqn:Hr.
  - simpl in IH. rewrite <- IH.
    destruct (JsString.is_space d) eqn:Hd; simpl.
    + rewrite (space_is_not_dot d Hd). reflexivity.
    + reflexivity.
  - simpl. rewrite <- IH. reflexivity.
Qed.

Lemma includes_trim (s : string) :
  JsString.includes "." (JsString.trim s) = JsString.includes "." s.
Proof. unfold JsString.trim. rewrite includes_trimEnd. apply includes_trimStart. Qed.

Lemma occurrences_app (c : ascii) (a b : string) :
  JsString.occurrences c (a +:+ b)
  = JsString.occurrences c a + JsString.occurrences c b.
Proof.
  induction a as [|d a IH]; simpl; [reflexivity|].
  rewrite IH. lia.
Qed.

Lemma occurrences_not_included (c : ascii) (s : string) :
  JsString.includes c s = false -> JsString.occurrences c s = 0.
Proof.
  induction s as [|d s IH]; simpl; [reflexivity|].
  destruct (Ascii.eqb d c); simpl; [discriminate|exact IH].
Qed.

Lemma split_not_nil (sep : ascii) (s : string) : JsString.split sep s <> [].
Proof.
  destruct s as [|c s]; simpl; [discriminate|].
  destruct (Ascii.eqb c sep); [discriminate|].
  destruct (JsString.split sep s); discriminate.
Qed.

(** ** Ticker normalisation (lines 100-107) *)

Lemma normalize_ticker_dotted (ex t : string) :
  JsString.includes "." t = true ->
  normalize_ticker ex t = JsString.toUpperCase (JsString.trim t).
Proof.
  intros Ht. unfold normalize_ticker.
  rewrite includes_toUpperCase, includes_trim, Ht. reflexivity.
Qed.

(** C2, as stated, fails: an element that contains a "." is still trimmed
    and upper-cased, so it need not appear as it was entered. *)
Lemma dotted_ticker_not_left_as_entered :
  ~ (forall ex t : string,
       JsString.includes "." t = true -> normalize_ticker ex t = t).
Proof.
  intros Hclaim. specialize (Hclaim "NS" " reliance.bo" eq_refl).
  vm_compute in Hclaim. discriminate Hclaim.
Qed.

(** C2, amended: an element of the ticker input that contains a "." gets
    no exchange suffix; the piece that takes its place in the joined
    output, in both revisions, is the element trimmed and upper-cased. *)
Theorem dotted_ticker_gets_no_suffix (payload : Payload) (i : nat) (t : string) :
  JsString.split "," (tickers payload) !! i = Some t ->
  JsString.includes "." t = true ->
  let pieces :=
    normalize_ticker (exchange payload) <$> JsString.split "," (tickers payload) in
  normalize_tickers payload = JsString.join "," pieces
  /\ Rev0.normalize_tickers payload = JsString.join ", " pieces
  /\ pieces !! i = Some (JsString.toUpperCase (JsString.trim t)).
Proof.
  intros Hi Ht pieces. repeat split.
  subst pieces. rewrite list_lookup_fmap, Hi. simpl.
  rewrite (normalize_ticker_dotted _ _ Ht). reflexivity.
Qed.

Lemma dotted_ticker_gets_no_suffix_witness :
  normalize_tickers (sample_payload "tcs, reliance.bo") = "TCS.NS,RELIANCE.BO"
  /\ Rev0.normalize_tickers (sample_payload "tcs, reliance.bo")
     = "TCS.NS, RELIANCE.BO"
  /\ (normalize_ticker "NS" <$> JsString.split "," "tcs, reliance.bo") !! 1
     = Some "RELIANCE.BO".
Proof.
  destruct (dotted_ticker_gets_no_suffix (sample_payload "tcs, reliance.bo")
              1 " reliance.bo" eq_refl eq_refl) as (H1 & H2 & H3).
  split; [exact H1|]. split; [exact H2|exact H3].
Defined.

(** C4: an element that, trimmed and upper-cased, contains no "." is
    replaced by itself followed by exactly one [.{exchange}] suffix, and the
    pieces are joined with commas in input order. *)
Theorem undotted_ticker_gets_one_suffix (payload : Payload) (i : nat) (t : string) :
  JsString.split "," (tickers payload) !! i = Some t ->
  JsString.includes "." (JsString.toUpperCase (JsString.trim t)) = false ->
  let base := JsString.toUpperCase (JsString.trim t) in
  let pieces :=
    normalize_ticker (exchange payload) <$> JsString.split "," (tickers payload) in
  normalize_tickers payload = JsString.join "," pieces
  /\ get_opt "Ticker " (requestBody payload) = VStr (JsString.join "," pieces)
  /\ length pieces = length (JsString.split "," (tickers payload))
  /\ pieces !! i = Some (base +:+ "." +:+ exchange payload)
  /\ JsString.occurrences "." (base +:+ "." +:+ exchange payload)
     = 1 + JsString.occurrences "." (exchange payload).
Proof.
  intros Hi Hbase base pieces. subst base pieces. split; [reflexivity|].
  split; [unfold requestBody; simpl; rewrite lookup_insert_eq; reflexivity|].
  split; [apply length_fmap|]. split.
  - rewrite list_lookup_fmap, Hi. simpl. unfold normalize_ticker.
    rewrite Hbase. reflexivity.
  - rewrite occurrences_app, (occurrences_not_included _ _ Hbase).
    reflexivity.
Qed.

Lemma undotted_ticker_gets_one_suffix_witness :
  normalize_tickers (sample_payload " aaa ,bbb") = "AAA.NS,BBB.NS"
  /\ get_opt "Ticker " (requestBody (sample_payload " aaa ,bbb"))
     = VStr "AAA.NS,BBB.NS"
  /\ JsString.occurrences "." "AAA.NS" = 1.
Proof.
  destruct (undotted_ticker_gets_one_suffix (sample_payload " aaa ,bbb")
              0 " aaa " eq_refl eq_refl) as (H1 & H2 & _ & _ & H3).
  split; [exact H1|]. split; [exact H2|exact H3].
Defined.

(** ** Per-record validation (lines 182-199) *)

Lemma mark_invalid_fields (m : gmap string value) (reason : value) :
  exists m' : gmap string value,
    mark_invalid (VObj m) reason = VObj m'
    /\ m' !! "isInvalid" = Some (VBool true)
    /\ m' !! "invalidReason" = Some reason
    /\ (forall k : string,
          k <> "isInvalid" -> k <> "invalidReason" -> m' !! k = m !! k).
Proof.
  eexists. split; [reflexivity|]. split; [|split].
  - rewrite lookup_insert_ne by discriminate. apply lookup_insert_eq.
  - apply lookup_insert_eq.
  - intros k Hk1 Hk2. rewrite !lookup_insert_ne by congruence. reflexivity.
Qed.

Lemma validate_record_error (m : gmap string value) (e : value) :
  m !! "error" = Some e -> truthy e = true ->
  validate_record (VObj m)
  = inr (mark_invalid (VObj m) (js_or (default VUndefined (m !! "details")) e)).
Proof.
  intros He Ht. unfold validate_record. simpl. rewrite He. simpl.
  rewrite Ht. reflexivity.
Qed.

Lemma validate_record_falsy_error (m : gmap string value) :
  truthy (default VUndefined (m !! "error")) = false ->
  validate_record (VObj m)
  = let current_price := default VUndefined (m !! "current_price") in
    if negb (truthy current_price) || strict_eq_zero current_price
    then inr (mark_invalid (VObj m) (VStr invalid_price_reason))
    else inr (VObj m).
Proof.
  intros He. unfold validate_record. simpl. rewrite He. simpl.
  destruct (_ || _); reflexivity.
Qed.

(** Validation of an object never throws. *)
Lemma validate_record_object (m : gmap string value) :
  exists m' : gmap string value, validate_record (VObj m) = inr (VObj m').
Proof.
  destruct (truthy (default VUndefined (m !! "error"))) eqn:He.
  - destruct (m !! "error") as [e|] eqn:Hm; [|discriminate He].
    rewrite (validate_record_error m e Hm He).
    destruct (mark_invalid_fields m (js_or (default VUndefined (m !! "details")) e))
      as (m' & -> & _). eauto.
  - rewrite (validate_record_falsy_error m He). simpl.
    destruct (_ || _); [|eauto].
    destruct (mark_invalid_fields m (VStr invalid_price_reason)) as (m' & -> & _).
    eauto.
Qed.

Lemma map_result_validate_objects (l : list value) :
  Forall is_object l ->
  exists l' : list value,
    map_result validate_record l = inr l' /\ length l' = length l.
Proof.
  induction 1 as [|r l Hr _ IH]; simpl.
  - exists []. split; reflexivity.
  - destruct r as [| | | | | |m]; try contradiction.
    destruct (validate_record_object m) as (m' & ->).
    destruct IH as (l' & -> & Hlen). simpl.
    exists (VObj m' :: l'). split; [reflexivity|]. simpl. congruence.
Qed.

Lemma truthy_number (x : float) :
  PrimFloat.is_zero x = false -> PrimFloat.is_nan x = false ->
  truthy (default VUndefined (Some (VNum x))) = true.
Proof. intros Hz Hn. simpl. rewrite Hz, Hn. reflexivity. Qed.

Lemma strict_eq_zero_number (x : float) :
  PrimFloat.is_zero x = false ->
  strict_eq_zero (default VUndefined (Some (VNum x))) = false.
Proof. intros Hz. exact Hz. Qed.

(** C7: a record with no [error] field whose [current_price] is absent or
    zero is returned with [isInvalid] true, the fixed reason, and every
    other field as it was; a record with no [error] field and a non-zero
    price is returned unmodified, so [isInvalid] stays unset. *)
Theorem price_validation (m : gmap string value) :
  m !! "error" = None ->
  ((m !! "current_price" = None
    \/ exists x : float,
         m !! "current_price" = Some (VNum x) /\ PrimFloat.is_zero x = true) ->
   exists m' : gmap string value,
     validate_record (VObj m) = inr (VObj m')
     /\ m' !! "isInvalid" = Some (VBool true)
     /\ m' !! "invalidReason"
        = Some (VStr "Invalid or delisted symbol - no price data available")
     /\ (forall k : string,
           k <> "isInvalid" -> k <> "invalidReason" -> m' !! k = m !! k))
  /\ (forall x : float,
        m !! "current_price" = Some (VNum x) ->
        PrimFloat.is_zero x = false -> PrimFloat.is_nan x = false ->
        validate_record (VObj m) = inr (VObj m)
        /\ (m !! "isInvalid" = None ->
            forall m' : gmap string value,
              validate_record (VObj m) = inr (VObj m') -> m' !! "isInvalid" = None)).
Proof.
  intros He.
  assert (Hf : truthy (default VUndefined (m !! "error")) = false)
    by (rewrite He; reflexivity).
  split.
  - intros Hp. rewrite (validate_record_falsy_error m Hf). simpl.
    assert (Hinv : negb (truthy (default VUndefined (m !! "current_price")))
                   || strict_eq_zero (default VUndefined (m !! "current_price"))
                   = true).
    { destruct Hp as [-> | (x & -> & Hx)]; simpl; [reflexivity|].
      rewrite Hx. reflexivity. }
    rewrite Hinv.
    destruct (mark_invalid_fields m (VStr invalid_price_reason))
      as (m' & -> & H1 & H2 & H3).
    exists m'. auto.
  - intros x Hp Hz Hn.
    assert (Hv : validate_record (VObj m) = inr (VObj m)).
    { rewrite (validate_record_falsy_error m Hf). cbv zeta. rewrite Hp.
      rewrite (truthy_number x Hz Hn), (strict_eq_zero_number x Hz).
      reflexivity. }
    split; [exact Hv|].
    intros Hunset m' Hm'. rewrite Hv in Hm'. congruence.
Qed.

Lemma price_validation_witness :
  (exists m' : gmap string value,
     validate_record (VObj unpriced_record) = inr (VObj m')
     /\ m' !! "isInvalid" = Some (VBool true)
     /\ m' !! "invalidReason"
        = Some (VStr "Invalid or delisted symbol - no price data available")
     /\ m' !! "symbol" = Some (VStr "AAA.NS"))
  /\ validate_record (VObj priced_record) = inr (VObj priced_record).
Proof.
  split.
  - destruct (price_validation unpriced_record eq_refl) as [Hzero _].
    destruct Hzero as (m' & Hv & Hi & Hr & Hk).
    { right. exists 0%float. split; reflexivity. }
    exists m'. repeat split; try assumption.
    rewrite Hk by discriminate. reflexivity.
  - destruct (price_validation priced_record eq_refl) as [_ Hvalid].
    destruct (Hvalid 100%float eq_refl eq_refl eq_refl) as [Hv _].
    exact Hv.
Defined.

(** C8, as stated, fails twice: a record whose [error] field is the empty
    string is not flagged, and an empty [details] field is not used as the
    reason. *)
Lemma falsy_error_or_details_not_used :
  ~ (forall (m : gmap string value) (e : value),
       m !! "error" = Some e ->
       exists m' : gmap string value,
         validate_record (VObj m) = inr (VObj m')
         /\ m' !! "isInvalid" = Some (VBool true))
  /\ ~ (forall (m : gmap string value) (e d : value),
          m !! "error" = Some e -> m !! "details" = Some d ->
          exists m' : gmap string value,
            validate_record (VObj m) = inr (VObj m')
            /\ m' !! "invalidReason" = Some d).
Proof.
  split.
  - intros Hclaim.
    destruct (Hclaim (<["error" := VStr EmptyString]> priced_record)
                (VStr EmptyString)) as (m' & Hv & Hi).
    { vm_compute. reflexivity. }
    vm_compute in Hv. injection Hv as <-. vm_compute in Hi. discriminate Hi.
  - intros Hclaim.
    destruct (Hclaim (<["error" := VStr "not found"]>
                     (<["details" := VStr EmptyString]> ∅))
                (VStr "not found") (VStr EmptyString)) as (m' & Hv & Hr).
    { vm_compute. reflexivity. }
    { vm_compute. reflexivity. }
    vm_compute in Hv. injection Hv as <-. vm_compute in Hr. discriminate Hr.
Qed.

(** C8, amended: a record whose [error] field is truthy (a non-empty
    string, for a string) is returned with [isInvalid] true and every other
    field as it was; its [invalidReason] is the [details] field when that
    is present and truthy, otherwise the [error] value. *)
Theorem error_validation (m : gmap string value) (e : value) :
  m !! "error" = Some e -> truthy e = true ->
  exists m' : gmap string value,
    validate_record (VObj m) = inr (VObj m')
    /\ m' !! "isInvalid" = Some (VBool true)
    /\ m' !! "invalidReason"
       = Some (match m !! "details" with
               | Some d => if truthy d then d else e
               | None => e
               end)
    /\ (forall k : string,
          k <> "isInvalid" -> k <> "invalidReason" -> m' !! k = m !! k).
Proof.
  intros He Ht. rewrite (validate_record_error m e He Ht).
  destruct (mark_invalid_fields m (js_or (default VUndefined (m !! "details")) e))
    as (m' & -> & H1 & H2 & H3).
  exists m'. repeat split; try assumption.
  rewrite H2. f_equal. destruct (m !! "details"); reflexivity.
Qed.

Lemma error_validation_witness :
  exists m' : gmap string value,
    validate_record
      (VObj (<["error" := VStr "not found"]>
            (<["details" := VStr "symbol delisted"]>
            (<["symbol" := VStr "XYZ.NS"]> ∅)))) = inr (VObj m')
    /\ m' !! "isInvalid" = Some (VBool true)
    /\ m' !! "invalidReason" = Some (VStr "symbol delisted")
    /\ m' !! "symbol" = Some (VStr "XYZ.NS").
Proof.
  destruct (error_validation
              (<["error" := VStr "not found"]>
              (<["details" := VStr "symbol delisted"]>
              (<["symbol" := VStr "XYZ.NS"]> ∅)))
              (VStr "not found")) as (m' & Hv & Hi & Hr & Hk).
  { vm_compute. reflexivity. }
  { reflexivity. }
  exists m'. repeat split; try assumption.
  rewrite Hk by discriminate. vm_compute. reflexivity.
Defined.

(** ** Response shapes (lines 158-202) *)

Lemma normal_response_object_with_results {P : Platform}
    (m : gmap string value) (l l' : list value) :
  m !! "results" = Some (VArr l) ->
  map_result validate_record l = inr l' ->
  normal_response (VObj m) = inr (VObj (<["results" := VArr l']> m)).
Proof.
  intros Hm Hl. unfold normal_response. simpl. rewrite Hm. simpl.
  rewrite Hl. reflexivity.
Qed.

Lemma flat_record_returned_as_is {P : Platform} (tickers : string)
    (m : gmap string value) :
  m !! "results" = None -> handle_parsed tickers (VObj m) = inr (VObj m).
Proof.
  intros Hm. unfold handle_parsed, normal_response. simpl. rewrite Hm.
  reflexivity.
Qed.

(** C3 at a single flat record: [callN8N] returns the record itself, which
    has no [results] list, where the earliest revision wraps it in one. *)
Theorem flat_record_is_returned_without_results {P : Platform} (tickers : string) :
  handle_parsed tickers (VObj priced_record) = inr (VObj priced_record)
  /\ priced_record !! "results" = None
  /\ Rev0.normalize_shape (VObj priced_record)
     = inr (VObj (<["results" := VArr [VObj priced_record]]> ∅)).
Proof.
  split; [|split].
  - apply flat_record_returned_as_is. vm_compute. reflexivity.
  - vm_compute. reflexivity.
  - vm_compute. reflexivity.
Qed.

(** C9: a body with a [results] field and no [error] field is processed to
    the same outcome bare and wrapped in a one-element array, in both
    revisions; when [results] is an array of objects that outcome is the
    body with every record validated. *)
Theorem wrapped_and_bare_results_agree {P : Platform} (tickers : string)
    (m : gmap string value) (rs : value) :
  m !! "results" = Some rs ->
  m !! "error" = None ->
  handle_parsed tickers (VArr [VObj m]) = handle_parsed tickers (VObj m)
  /\ Rev0.normalize_shape (VArr [VObj m]) = Rev0.normalize_shape (VObj m)
  /\ (forall l : list value,
        rs = VArr l -> Forall is_object l ->
        exists l' : list value,
          map_result validate_record l = inr l'
          /\ length l' = length l
          /\ handle_parsed tickers (VObj m)
             = inr (VObj (<["results" := VArr l']> m))).
Proof.
  intros Hrs He. split; [|split].
  - unfold handle_parsed. simpl. rewrite He. reflexivity.
  - unfold Rev0.normalize_shape. simpl. rewrite Hrs. simpl.
    destruct (truthy rs); reflexivity.
  - intros l -> Hl.
    destruct (map_result_validate_objects l Hl) as (l' & Hmap & Hlen).
    exists l'. split; [exact Hmap|]. split; [exact Hlen|].
    unfold handle_parsed. apply normal_response_object_with_results with (l := l); assumption.
Qed.

Lemma wrapped_and_bare_results_agree_witness :
  handle_parsed (P := offline) "AAA.NS,BBB.NS" (VArr [VObj sample_report])
  = handle_parsed (P := offline) "AAA.NS,BBB.NS" (VObj sample_report)
  /\ exists r : value,
       handle_parsed (P := offline) "AAA.NS,BBB.NS" (VObj sample_report)
       = inr (VObj (<["results" := VArr [r; VObj priced_record]]> sample_report))
       /\ get_opt "isInvalid" r = VBool true.
Proof.
  destruct (wrapped_and_bare_results_agree (P := offline) "AAA.NS,BBB.NS"
              sample_report (VArr [VObj unpriced_record; VObj priced_record]))
    as (Hsame & _ & Hvalid).
  { vm_compute. reflexivity. }
  { vm_compute. reflexivity. }
  split; [exact Hsame|].
  destruct (Hvalid _ eq_refl) as (l' & Hmap & _ & Hresp).
  { repeat constructor. }
  rewrite Hresp. vm_compute in Hmap. injection Hmap as <-.
  eexists. split; [reflexivity|]. vm_compute. reflexivity.
Defined.

Lemma fails_with_attempt {P : Platform} (tk : string) (i : nat) (req : request)
    (f : failure) :
  fails_with i req f -> attempt tk i req = inl (failure_thrown f).
Proof.
  unfold attempt. destruct f as [t|code errorText| |]; simpl.
  - intros [-> | (res & -> & Ht)]; [reflexivity|]. simpl.
    destruct (ok res); simpl; rewrite Ht; reflexivity.
  - intros (res & -> & Hok & <- & Ht). simpl. rewrite Hok, Ht. reflexivity.
  - intros (res & s & -> & Hok & Ht & Hb). simpl. rewrite Hok, Ht. simpl.
    rewrite Hb. reflexivity.
  - intros (res & s & -> & Hok & Ht & Hb & Hp). simpl. rewrite Hok, Ht. simpl.
    rewrite Hb, Hp. reflexivity.
Qed.

Lemma answers_attempt {P : Platform} (tk : string) (i : nat) (req : request)
    (parsed : value) :
  answers i req parsed -> attempt tk i req = handle_parsed tk parsed.
Proof.
  intros (res & s & Hf & Hok & Ht & Hb & Hp). unfold attempt.
  rewrite Hf. simpl. rewrite Hok, Ht. simpl. rewrite Hb, Hp. reflexivity.
Qed.

(** Every attempt either fails before parsing or answers with a body. *)
Lemma attempt_cases {P : Platform} (i : nat) (req : request) :
  (exists f : failure, fails_with i req f)
  \/ (exists parsed : value, answers i req parsed).
Proof.
  destruct (fetch i req) as [t|res] eqn:Hf.
  { left. exists (NetworkError t). left. exact Hf. }
  destruct (text res) as [t|s] eqn:Ht.
  { left. exists (NetworkError t). right. exists res. auto. }
  destruct (ok res) eqn:Hok.
  2:{ left. exists (BadStatus (status res) s). exists res. auto. }
  destruct (blank s) eqn:Hb.
  { left. exists EmptyBody. exists res, s. auto. }
  destruct (JSON_parse s) as [parsed|] eqn:Hp.
  - right. exists parsed, res, s. auto.
  - left. exists MalformedJSON. exists res, s. auto.
Qed.

Lemma fails_with_not_answers {P : Platform} (i : nat) (req : request)
    (f : failure) (parsed : value) :
  fails_with i req f -> answers i req parsed -> False.
Proof.
  intros Hf (res & s & Hfetch & Hok & Ht & Hb & Hp).
  destruct f as [t|code errorText| |]; simpl in Hf.
  - destruct Hf as [Hf | (res' & Hf & Ht')]; rewrite Hfetch in Hf; [discriminate|].
    injection Hf as <-. congruence.
  - destruct Hf as (res' & Hf & Hok' & _). rewrite Hfetch in Hf.
    injection Hf as <-. congruence.
  - destruct Hf as (res' & s' & Hf & _ & Ht' & Hb'). rewrite Hfetch in Hf.
    injection Hf as <-. congruence.
  - destruct Hf as (res' & s' & Hf & _ & Ht' & _ & Hp'). rewrite Hfetch in Hf.
    injection Hf as <-. congruence.
Qed.

(** ** The loop over the two URLs (lines 121-214) *)

Lemma callN8N_primary_returns {P : Platform} (payload : Payload) (v : value) :
  attempt (normalize_tickers payload) 0 (make_request payload primaryUrl) = inr v ->
  callN8N payload = ([make_request payload primaryUrl], inr v).
Proof. intros Ha. unfold callN8N. simpl. rewrite Ha. reflexivity. Qed.

Lemma callN8N_primary_throws {P : Platform} (payload : Payload) (t : thrown) :
  attempt (normalize_tickers payload) 0 (make_request payload primaryUrl) = inl t ->
  callN8N payload
  = ([make_request payload primaryUrl; make_request payload fallbackUrl],
     match attempt (normalize_tickers payload) 1
             (make_request payload fallbackUrl) with
     | inr v => inr v
     | inl t' => throw (as_Error t')
     end).
Proof.
  intros Ha. unfold callN8N. simpl. rewrite Ha.
  destruct (attempt _ 1 _); reflexivity.
Qed.

(** ** The error array (lines 158-176) *)

Lemma handle_parsed_error_array {P : Platform} (tk : string) (l : list value) :
  truthy (get_opt "error" (first_element l)) = true ->
  handle_parsed tk (VArr l) = error_response tk (get_opt "error" (first_element l)).
Proof.
  intros Ht. unfold handle_parsed. rewrite Ht.
  destruct (first_element l); try discriminate Ht. reflexivity.
Qed.

Lemma map_result_pure {A B : Type} (f : A -> B) (l : list A) :
  map_result (fun x => inr (f x)) l = inr (f <$> l).
Proof.
  induction l as [|x l IH]; simpl; [reflexivity|]. rewrite IH. reflexivity.
Qed.

Lemma error_response_printed {P : Platform} (tk : string) (e : value) (text : string) :
  ToString Number_toString e = inr text ->
  error_response tk e
  = inr (VObj (<["results" :=
                  VArr (invalid_ticker_fields ("Invalid ticker: " +:+ text)
                          <$> JsString.split "," tk)]> ∅)).
Proof.
  intros He. unfold error_response, invalid_ticker_record. rewrite He. simpl.
  rewrite (map_result_pure (invalid_ticker_fields ("Invalid ticker: " +:+ text))).
  reflexivity.
Qed.

Lemma error_response_throws {P : Platform} (tk : string) (e : value) (t : thrown) :
  ToString Number_toString e = inl t -> error_response tk e = inl t.
Proof.
  intros He. unfold error_response, invalid_ticker_record.
  destruct (JsString.split "," tk) as [|p ps] eqn:Hs.
  - exfalso. exact (split_not_nil _ _ Hs).
  - simpl. rewrite He. reflexivity.
Qed.

(** [printable] decides whether the conversion to a string throws. *)
Lemma ToString_printable (nt : float -> string) (v : value) :
  (printable v = true -> exists s : string, ToString nt v = inr s)
  /\ (printable v = false -> ToString nt v = throw NotConvertible).
Proof.
  revert v. fix IH 1. intros v.
  destruct v as [| |b|x|s|l|m]; simpl.
  - split; [intros _; eexists; reflexivity|discriminate].
  - split; [intros _; eexists; reflexivity|discriminate].
  - destruct b; (split; [intros _; eexists; reflexivity|discriminate]).
  - split; [intros _; eexists; reflexivity|discriminate].
  - split; [intros _; eexists; reflexivity|discriminate].
  - assert (Hl :
      ((fix all (l : list value) : bool :=
          match l with
          | [] => true
          | x :: l' => printable x && all l'
          end) l = true ->
       exists ss : list string,
         (fix elements (l : list value) : result (list string) :=
            match l with
            | [] => mret []
            | VUndefined :: l' => ss ← elements l'; mret (EmptyString :: ss)
            | VNull :: l' => ss ← elements l'; mret (EmptyString :: ss)
            | x :: l' => s ← ToString nt x; ss ← elements l'; mret (s :: ss)
            end) l = inr ss)
      /\ ((fix all (l : list value) : bool :=
             match l with
             | [] => true
             | x :: l' => printable x && all l'
             end) l = false ->
          (fix elements (l : list value) : result (list string) :=
             match l with
             | [] => mret []
             | VUndefined :: l' => ss ← elements l'; mret (EmptyString :: ss)
             | VNull :: l' => ss ← elements l'; mret (EmptyString :: ss)
             | x :: l' => s ← ToString nt x; ss ← elements l'; mret (s :: ss)
             end) l = throw NotConvertible)).
    { induction l as [|x l [IHl1 IHl2]].
      - split; [intros _; exists []; reflexivity|discriminate].
      - destruct (IH x) as [Hx1 Hx2].
        destruct (printable x) eqn:Hp.
        + destruct (Hx1 eq_refl) as (sx & Hsx). split.
          * intros Hall. rewrite andb_true_l in Hall.
            destruct (IHl1 Hall) as (ss & Hss).
            destruct x; rewrite ?Hsx, Hss; simpl; eexists; reflexivity.
          * intros Hall. rewrite andb_true_l in Hall.
            pose proof (IHl2 Hall) as Hss.
            destruct x; rewrite ?Hsx, Hss; reflexivity.
        + split; [discriminate|]. intros _.
          pose proof (Hx2 eq_refl) as Hsx.
          destruct x; try discriminate Hp; rewrite Hsx; reflexivity. }
    destruct Hl as [Hl1 Hl2]. split.
    + intros Hall. destruct (Hl1 Hall) as (ss & ->). simpl. eexists; reflexivity.
    + intros Hall. rewrite (Hl2 Hall). reflexivity.
  - destruct (m !! "toString").
    + split; [discriminate|reflexivity].
    + split; [intros _; eexists; reflexivity|discriminate].
Qed.

Lemma error_response_unprintable {P : Platform} (tk : string) (e : value) :
  printable e = false -> error_response tk e = throw NotConvertible.
Proof.
  intros He. apply error_response_throws.
  apply (proj2 (ToString_printable Number_toString e)), He.
Qed.

Lemma normalize_tickers_AAA_BBB (payload : Payload) :
  tickers payload = "AAA,BBB" -> exchange payload = "NS" ->
  normalize_tickers payload = "AAA.NS,BBB.NS".
Proof. intros Ht He. unfold normalize_tickers. rewrite Ht, He. reflexivity. Qed.

Lemma served_returns {P : Platform} (payload : Payload) (parsed v : value) :
  served payload parsed ->
  handle_parsed (normalize_tickers payload) parsed = inr v ->
  snd (callN8N payload) = inr v.
Proof.
  intros [Hans | [(t1 & H1) Hans]] Hv.
  - rewrite (callN8N_primary_returns payload v); [reflexivity|].
    rewrite (answers_attempt _ _ _ _ Hans). exact Hv.
  - rewrite (callN8N_primary_throws payload t1 H1).
    rewrite (answers_attempt _ _ _ _ Hans), Hv. reflexivity.
Qed.

(** C1, as stated, fails: the synthesised records are named after the
    normalised tickers, so their symbols are "AAA.NS" and "BBB.NS"; a
    first element whose [error] field is the empty string does not trigger
    the synthesis at all; and an [error] that is an object with an own
    [toString] property cannot be put into the reason: the attempt throws,
    the fallback is requested, and no records are returned. *)
Lemma error_array_symbols_keep_suffix :
  (answers (P := server (http 200 error_body_text) unreachable) 0
     (make_request (P := server (http 200 error_body_text) unreachable)
        (sample_payload "AAA,BBB") primaryUrl)
     error_body
   /\ exists r1 r2 : gmap string value,
        snd (callN8N (P := server (http 200 error_body_text) unreachable)
               (sample_payload "AAA,BBB"))
        = inr (VObj (<["results" := VArr [VObj r1; VObj r2]]> ∅))
        /\ r1 !! "symbol" = Some (VStr "AAA.NS")
        /\ r2 !! "symbol" = Some (VStr "BBB.NS")
        /\ r1 !! "symbol" <> Some (VStr "AAA")
        /\ r2 !! "symbol" <> Some (VStr "BBB"))
  /\ (answers (P := server (http 200 empty_error_body_text) unreachable) 0
        (make_request (P := server (http 200 empty_error_body_text) unreachable)
           (sample_payload "AAA,BBB") primaryUrl)
        empty_error_body
      /\ snd (callN8N (P := server (http 200 empty_error_body_text) unreachable)
                (sample_payload "AAA,BBB"))
         = inr (VObj (<["error" := VStr EmptyString]> ∅)))
  /\ (answers (P := unprintable_server) 0
        (make_request (P := unprintable_server) (sample_payload "AAA,BBB") primaryUrl)
        unprintable_error_body
      /\ is_error_array unprintable_error_body = true
      /\ callN8N (P := unprintable_server) (sample_payload "AAA,BBB")
         = ([make_request (P := unprintable_server)
               (sample_payload "AAA,BBB") primaryUrl;
             make_request (P := unprintable_server)
               (sample_payload "AAA,BBB") fallbackUrl],
            inl (ThrownError (Err "Failed to fetch")))).
Proof.
  split; [split|split; [split|split; [|split]]].
  - eexists _, error_body_text. repeat split; reflexivity.
  - eexists _, _. split; [vm_compute; reflexivity|].
    repeat split; try (vm_compute; reflexivity);
      vm_compute; discriminate.
  - eexists _, empty_error_body_text. repeat split; reflexivity.
  - vm_compute. reflexivity.
  - eexists _, unprintable_error_body_text. repeat split; vm_compute; reflexivity.
  - vm_compute. reflexivity.
  - vm_compute. reflexivity.
Qed.

(** C1, amended: when the answer [callN8N] processes (the primary
    endpoint's, or the fallback's after a failed primary attempt) is a 2xx
    whose body parses to an array whose first element has a truthy [error]
    field that converts to a string [text] (for a string, the string
    itself), then for the ticker input "AAA,BBB" and exchange "NS"
    [callN8N] returns exactly two records, with symbols "AAA.NS" and
    "BBB.NS", each with price 0, signal "SELL/AVOID", confidence "0%",
    [isInvalid] true, and the reason "Invalid ticker: " followed by
    [text]. *)
Theorem error_array_yields_invalid_records {P : Platform} (payload : Payload)
    (l : list value) (e : value) (text : string) :
  tickers payload = "AAA,BBB" ->
  exchange payload = "NS" ->
  served payload (VArr l) ->
  get_opt "error" (first_element l) = e ->
  truthy e = true ->
  ToString Number_toString e = inr text ->
  (forall s : string, e = VStr s -> text = s)
  /\ exists r1 r2 : gmap string value,
       snd (callN8N payload)
       = inr (VObj (<["results" := VArr [VObj r1; VObj r2]]> ∅))
       /\ r1 !! "symbol" = Some (VStr "AAA.NS")
       /\ r2 !! "symbol" = Some (VStr "BBB.NS")
       /\ (forall r : gmap string value,
             r = r1 \/ r = r2 ->
             r !! "current_price" = Some (VNum 0%float)
             /\ r !! "signal" = Some (VStr "SELL/AVOID")
             /\ r !! "confidence" = Some (VStr "0%")
             /\ r !! "isInvalid" = Some (VBool true)
             /\ r !! "invalidReason" = Some (VStr ("Invalid ticker: " +:+ text))).
Proof.
  intros Ht Hx Hserved He Htruthy Htext. subst e. split.
  - intros s Hs. rewrite Hs in Htext. simpl in Htext.
    unfold mret, result_ret in Htext. congruence.
  - eexists _, _. split.
    + apply (served_returns payload (VArr l) _ Hserved).
      rewrite (handle_parsed_error_array _ _ Htruthy).
      rewrite (error_response_printed _ _ _ Htext).
      rewrite (normalize_tickers_AAA_BBB payload Ht Hx). reflexivity.
    + split; [reflexivity|]. split; [reflexivity|].
      intros r [-> | ->]; repeat split; reflexivity.
Qed.

Lemma error_array_yields_invalid_records_witness :
  exists r1 r2 : gmap string value,
    snd (callN8N (P := server unreachable (http 200 error_body_text))
           (sample_payload "AAA,BBB"))
    = inr (VObj (<["results" := VArr [VObj r1; VObj r2]]> ∅))
    /\ r1 !! "symbol" = Some (VStr "AAA.NS")
    /\ r2 !! "symbol" = Some (VStr "BBB.NS")
    /\ r1 !! "invalidReason" = Some (VStr "Invalid ticker: bad ticker")
    /\ r2 !! "invalidReason" = Some (VStr "Invalid ticker: bad ticker").
Proof.
  assert (Hserved : served (P := server unreachable (http 200 error_body_text))
                      (sample_payload "AAA,BBB")
                      (VArr [VObj (<["error" := VStr "bad ticker"]> ∅)])).
  { right. split.
    - exists (ThrownError (Err "Failed to fetch")). vm_compute. reflexivity.
    - eexists _, error_body_text. repeat split; vm_compute; reflexivity. }
  assert (He : get_opt "error" (first_element [VObj (<["error" := VStr "bad ticker"]> ∅)])
               = VStr "bad ticker")
    by (vm_compute; reflexivity).
  destruct (error_array_yields_invalid_records
              (P := server unreachable (http 200 error_body_text))
              (sample_payload "AAA,BBB") _ _ "bad ticker"
              eq_refl eq_refl Hserved He eq_refl eq_refl)
    as (_ & r1 & r2 & Hcall & H1 & H2 & Hall).
  exists r1, r2. repeat split; try assumption.
  - destruct (Hall r1 (or_introl eq_refl)) as (_ & _ & _ & _ & Hr). exact Hr.
  - destruct (Hall r2 (or_intror eq_refl)) as (_ & _ & _ & _ & Hr). exact Hr.
Defined.

(** ** Primary and fallback (lines 121-215) *)

(** C5: when both attempts fail, in any of the four ways, [callN8N] stops
    after the two requests and rejects with the error of the fallback
    attempt (an [Error] made from it at line 204 if it was not one). *)
Theorem both_endpoints_fail {P : Platform} (payload : Payload) (f1 f2 : failure) :
  fails_with 0 (make_request payload primaryUrl) f1 ->
  fails_with 1 (make_request payload fallbackUrl) f2 ->
  callN8N payload
  = ([make_request payload primaryUrl; make_request payload fallbackUrl],
     inl (ThrownError (as_Error (failure_thrown f2))))
  /\ (forall e : js_error,
        failure_thrown f2 = ThrownError e ->
        snd (callN8N payload) = inl (ThrownError e)).
Proof.
  intros H1 H2.
  assert (Hcall : callN8N payload
                  = ([make_request payload primaryUrl;
                      make_request payload fallbackUrl],
                     inl (ThrownError (as_Error (failure_thrown f2))))).
  { rewrite (callN8N_primary_throws payload _ (fails_with_attempt _ _ _ _ H1)).
    rewrite (fails_with_attempt _ _ _ _ H2). reflexivity. }
  split; [exact Hcall|].
  intros e He. rewrite Hcall, He. reflexivity.
Qed.

Lemma both_endpoints_fail_witness :
  callN8N (P := server (http 500 "boom") (http 200 "  ")) (sample_payload "AAA")
  = ([make_request (P := server (http 500 "boom") (http 200 "  "))
        (sample_payload "AAA") primaryUrl;
      make_request (P := server (http 500 "boom") (http 200 "  "))
        (sample_payload "AAA") fallbackUrl],
     inl (ThrownError
            (Err "Empty response from webhook. Make sure your n8n workflow returns data."))).
Proof.
  destruct (both_endpoints_fail (P := server (http 500 "boom") (http 200 "  "))
              (sample_payload "AAA") (BadStatus 500 "boom") EmptyBody)
    as [Hcall _].
  { eexists. repeat split; reflexivity. }
  { eexists _, _. repeat split; reflexivity. }
  exact Hcall.
Defined.



(** C10, as stated, fails: a 2xx answer whose body is the empty array is
    none of the four failures, yet the attempt throws (a property of
    [undefined] is read) and the fallback is requested; a first element
    whose [error] field is the empty string is returned as it is, not as
    synthesised records; and for an error array whose [error] is an object
    with an own [toString] property the attempt throws and the fallback is
    requested. *)
Lemma fallback_tried_after_type_error :
  ((forall f : failure,
      ~ fails_with (P := server (http 200 "[]") unreachable) 0
          (make_request (P := server (http 200 "[]") unreachable)
             (sample_payload "AAA") primaryUrl) f)
   /\ fst (callN8N (P := server (http 200 "[]") unreachable) (sample_payload "AAA"))
      = [make_request (P := server (http 200 "[]") unreachable)
           (sample_payload "AAA") primaryUrl;
         make_request (P := server (http 200 "[]") unreachable)
           (sample_payload "AAA") fallbackUrl])
  /\ callN8N (P := server (http 200 empty_error_body_text) unreachable)
       (sample_payload "AAA")
     = ([make_request (P := server (http 200 empty_error_body_text) unreachable)
           (sample_payload "AAA") primaryUrl],
        inr (VObj (<["error" := VStr EmptyString]> ∅)))
  /\ (answers (P := unprintable_server) 0
        (make_request (P := unprintable_server) (sample_payload "AAA") primaryUrl)
        unprintable_error_body
      /\ is_error_array unprintable_error_body = true
      /\ fst (callN8N (P := unprintable_server) (sample_payload "AAA"))
         = [make_request (P := unprintable_server) (sample_payload "AAA") primaryUrl;
            make_request (P := unprintable_server) (sample_payload "AAA")
              fallbackUrl]).
Proof.
  split; [split|split; [|split; [|split]]].
  - intros f Hf. apply (fails_with_not_answers _ _ f (VArr []) Hf).
    eexists _, "[]". repeat split; reflexivity.
  - vm_compute. reflexivity.
  - vm_compute. reflexivity.
  - eexists _, unprintable_error_body_text. repeat split; vm_compute; reflexivity.
  - vm_compute. reflexivity.
  - vm_compute. reflexivity.
Qed.

(** C10, amended: a 2xx answer whose body parses to an array with, in its
    first element, a truthy [error] that converts to a string is a success:
    from the primary endpoint the synthesised response is returned without
    any request to the fallback, and from the fallback it is returned after
    a failed primary attempt.  The fallback is requested exactly when the
    primary attempt throws, which it does on the four failures and also
    when processing the parsed body throws; that includes an error array
    whose [error] cannot be converted to a string. *)
Theorem error_array_is_success {P : Platform} (payload : Payload) :
  let tk := normalize_tickers payload in
  let primary := make_request payload primaryUrl in
  let fallback := make_request payload fallbackUrl in
  let synthesised (text : string) :=
    VObj (<["results" :=
             VArr (invalid_ticker_fields ("Invalid ticker: " +:+ text)
                     <$> JsString.split "," tk)]> ∅) in
  (forall (l : list value) (text : string),
     answers 0 primary (VArr l) ->
     truthy (get_opt "error" (first_element l)) = true ->
     ToString Number_toString (get_opt "error" (first_element l)) = inr text ->
     callN8N payload = ([primary], inr (synthesised text)))
  /\ (forall (t1 : thrown) (l : list value) (text : string),
        attempt tk 0 primary = inl t1 ->
        answers 1 fallback (VArr l) ->
        truthy (get_opt "error" (first_element l)) = true ->
        ToString Number_toString (get_opt "error" (first_element l)) = inr text ->
        callN8N payload = ([primary; fallback], inr (synthesised text)))
  /\ (fst (callN8N payload) = [primary; fallback]
      <-> (exists f : failure, fails_with 0 primary f)
          \/ (exists (parsed : value) (t : thrown),
                answers 0 primary parsed /\ handle_parsed tk parsed = inl t))
  /\ (forall l : list value,
        answers 0 primary (VArr l) ->
        truthy (get_opt "error" (first_element l)) = true ->
        printable (get_opt "error" (first_element l)) = false ->
        handle_parsed tk (VArr l) = inl (ThrownError NotConvertible)
        /\ fst (callN8N payload) = [primary; fallback]).
Proof.
  intros tk primary fallback synthesised.
  assert (Hthrows : forall (parsed : value) (t : thrown),
             answers 0 primary parsed -> handle_parsed tk parsed = inl t ->
             fst (callN8N payload) = [primary; fallback]).
  { intros parsed t Hans Hh.
    pose proof (answers_attempt tk 0 primary parsed Hans) as Ha.
    rewrite Hh in Ha. rewrite (callN8N_primary_throws payload t Ha). reflexivity. }
  split; [|split; [|split]].
  - intros l text Hans Ht Htext. apply callN8N_primary_returns.
    rewrite (answers_attempt _ _ _ _ Hans).
    rewrite (handle_parsed_error_array _ _ Ht).
    apply error_response_printed, Htext.
  - intros t1 l text H1 Hans Ht Htext.
    rewrite (callN8N_primary_throws payload t1 H1).
    rewrite (answers_attempt _ _ _ _ Hans).
    rewrite (handle_parsed_error_array _ _ Ht).
    rewrite (error_response_printed _ _ _ Htext). reflexivity.
  - split.
    + intros Hlog. destruct (attempt_cases 0 primary) as [Hf | (parsed & Hans)].
      * left. exact Hf.
      * right. exists parsed.
        destruct (handle_parsed tk parsed) as [t|v] eqn:Hh;
          [exists t; split; [exact Hans|reflexivity]|].
        exfalso. pose proof (answers_attempt tk 0 primary parsed Hans) as Ha.
        rewrite Hh in Ha.
        rewrite (callN8N_primary_returns payload v Ha) in Hlog.
        discriminate Hlog.
    + intros [(f & Hf) | (parsed & t & Hans & Hh)].
      * rewrite (callN8N_primary_throws payload _ (fails_with_attempt tk _ _ _ Hf)).
        reflexivity.
      * exact (Hthrows parsed t Hans Hh).
  - intros l Hans Ht Hp.
    assert (Hh : handle_parsed tk (VArr l) = inl (ThrownError NotConvertible)).
    { rewrite (handle_parsed_error_array _ _ Ht).
      apply error_response_unprintable, Hp. }
    split; [exact Hh|exact (Hthrows _ _ Hans Hh)].
Qed.

Lemma error_array_is_success_witness :
  callN8N (P := server (http 200 error_body_text) unreachable) (sample_payload "AAA")
  = ([make_request (P := server (http 200 error_body_text) unreachable)
        (sample_payload "AAA") primaryUrl],
     inr (VObj (<["results" :=
                   VArr (invalid_ticker_fields ("Invalid ticker: " +:+ "bad ticker")
                           <$> JsString.split ","
                                 (normalize_tickers (sample_payload "AAA")))]> ∅))).
Proof.
  assert (Hans : answers (P := server (http 200 error_body_text) unreachable) 0
                   (make_request (P := server (http 200 error_body_text) unreachable)
                      (sample_payload "AAA") primaryUrl)
                   (VArr [VObj (<["error" := VStr "bad ticker"]> ∅)]))
    by (eexists _, error_body_text; repeat split; vm_compute; reflexivity).
  assert (Ht : truthy (get_opt "error"
                         (first_element [VObj (<["error" := VStr "bad ticker"]> ∅)]))
               = true)
    by (vm_compute; reflexivity).
  assert (Htext : ToString (Number_toString
                              (Platform := server (http 200 error_body_text)
                                             unreachable))
                    (get_opt "error"
                       (first_element [VObj (<["error" := VStr "bad ticker"]> ∅)]))
                  = inr "bad ticker")
    by (vm_compute; reflexivity).
  exact (proj1 (error_array_is_success
                  (P := server (http 200 error_body_text) unreachable)
                  (sample_payload "AAA")) _ _ Hans Ht Htext).
Defined.

(** * Further properties of the code *)

(** ** More on strings: [split], [join], [trim] *)

Lemma includes_app (c : ascii) (a b : string) :
  JsString.includes c (a +:+ b) = JsString.includes c a || JsString.includes c b.
Proof.
  induction a as [|d a IH]; simpl; [reflexivity|].
  rewrite IH. apply orb_assoc.
Qed.

Lemma upper_char_is_comma (d : ascii) :
  Ascii.eqb (JsString.upper_char d) "," = Ascii.eqb d ",".
Proof. destruct d as [[] [] [] [] [] [] [] []]; reflexivity. Qed.

Lemma upper_char_is_space (d : ascii) :
  JsString.is_space (JsString.upper_char d) = JsString.is_space d.
Proof. destruct d as [[] [] [] [] [] [] [] []]; reflexivity. Qed.

Lemma upper_char_idempotent (d : ascii) :
  JsString.upper_char (JsString.upper_char d) = JsString.upper_char d.
Proof. destruct d as [[] [] [] [] [] [] [] []]; reflexivity. Qed.

Lemma includes_comma_toUpperCase (s : string) :
  JsString.includes "," (JsString.toUpperCase s) = JsString.includes "," s.
Proof.
  induction s as [|d s IH]; simpl; [reflexivity|].
  rewrite upper_char_is_comma, IH. reflexivity.
Qed.

Lemma includes_trimStart_le (c : ascii) (s : string) :
  JsString.includes c s = false -> JsString.includes c (JsString.trimStart s) = false.
Proof.
  induction s as [|d s IH]; simpl; [reflexivity|].
  intros [Hd Hs]%orb_false_elim.
  destruct (JsString.is_space d); [apply IH, Hs|].
  simpl. rewrite Hd, Hs. reflexivity.
Qed.

Lemma includes_trimEnd_le (c : ascii) (s : string) :
  JsString.includes c s = false -> JsString.includes c (JsString.trimEnd s) = false.
Proof.
  induction s as [|d s IH]; simpl; [reflexivity|].
  intros [Hd Hs]%orb_false_elim. specialize (IH Hs).
  destruct (JsString.trimEnd s) as [|e r].
  - destruct (JsString.is_space d); simpl; [reflexivity|].
    rewrite Hd. reflexivity.
  - change (JsString.includes c (String d (String e r)))
      with (Ascii.eqb d c || JsString.includes c (String e r)).
    rewrite Hd, IH. reflexivity.
Qed.

Lemma includes_trim_le (c : ascii) (s : string) :
  JsString.includes c s = false -> JsString.includes c (JsString.trim s) = false.
Proof.
  intros Hs. unfold JsString.trim.
  apply includes_trimEnd_le, includes_trimStart_le, Hs.
Qed.

Lemma split_length (sep : ascii) (s : string) :
  length (JsString.split sep s) = 1 + JsString.occurrences sep s.
Proof.
  induction s as [|c s IH]; simpl; [reflexivity|].
  destruct (Ascii.eqb c sep); simpl; [rewrite IH; reflexivity|].
  destruct (JsString.split sep s) as [|p ps] eqn:Hs.
  - exfalso. exact (split_not_nil sep s Hs).
  - simpl in *. exact IH.
Qed.

Lemma split_pieces_without_separator (sep : ascii) (s : string) :
  Forall (fun p => JsString.includes sep p = false) (JsString.split sep s).
Proof.
  induction s as [|c s IH]; simpl.
  - constructor; [reflexivity|constructor].
  - destruct (Ascii.eqb c sep) eqn:Hc.
    + constructor; [reflexivity|exact IH].
    + destruct (JsString.split sep s) as [|p ps].
      * constructor; [simpl; rewrite Hc; reflexivity|constructor].
      * inversion IH as [|? ? Hp Hps]; subst.
        constructor; [simpl; rewrite Hc, Hp; reflexivity|exact Hps].
Qed.

Lemma join_split (sep : ascii) (s : string) :
  JsString.join (String sep EmptyString) (JsString.split sep s) = s.
Proof.
  induction s as [|c s IH]; simpl; [reflexivity|].
  destruct (Ascii.eqb c sep) eqn:Hc.
  - apply Ascii.eqb_eq in Hc. subst c.
    destruct (JsString.split sep s) as [|p ps] eqn:Hs.
    + exfalso. exact (split_not_nil sep s Hs).
    + simpl. simpl in IH. rewrite IH. reflexivity.
  - destruct (JsString.split sep s) as [|p ps] eqn:Hs.
    + exfalso. exact (split_not_nil sep s Hs).
    + destruct ps as [|q qs]; simpl in *; rewrite <- IH; reflexivity.
Qed.

Lemma split_without_separator (sep : ascii) (p : string) :
  JsString.includes sep p = false -> JsString.split sep p = [p].
Proof.
  induction p as [|c p IH]; simpl; [reflexivity|].
  intros [Hc Hp]%orb_false_elim. rewrite Hc, (IH Hp). reflexivity.
Qed.

Lemma split_app_separator (sep : ascii) (p rest : string) :
  JsString.includes sep p = false ->
  JsString.split sep (p +:+ String sep rest) = p :: JsString.split sep rest.
Proof.
  induction p as [|c p IH]; simpl.
  - intros _. rewrite Ascii.eqb_refl. reflexivity.
  - intros [Hc Hp]%orb_false_elim. rewrite Hc, (IH Hp). reflexivity.
Qed.

Lemma split_join (sep : ascii) (pieces : list string) :
  pieces <> [] ->
  Forall (fun p => JsString.includes sep p = false) pieces ->
  JsString.split sep (JsString.join (String sep EmptyString) pieces) = pieces.
Proof.
  induction pieces as [|p ps IH]; [congruence|].
  intros _ Hall. inversion Hall as [|? ? Hp Hps]; subst.
  destruct ps as [|q qs].
  - simpl. apply split_without_separator, Hp.
  - change (JsString.join (String sep EmptyString) (p :: q :: qs))
      with (p +:+ String sep EmptyString
              +:+ JsString.join (String sep EmptyString) (q :: qs)).
    change (String sep EmptyString +:+ ?x) with (String sep x).
    rewrite (split_app_separator sep p _ Hp).
    rewrite IH by (discriminate || assumption). reflexivity.
Qed.

Lemma trimStart_empty_iff (s : string) :
  JsString.trimStart s = EmptyString <-> all_space s.
Proof.
  unfold all_space. induction s as [|c s IH]; simpl.
  - split; [constructor|reflexivity].
  - destruct (JsString.is_space c) eqn:Hc.
    + rewrite IH. split; [intros Hs; constructor; assumption|].
      intros Hs. inversion Hs; assumption.
    + split; [discriminate|]. intros Hs. inversion Hs; congruence.
Qed.

Lemma trimStart_starts_without_space (s : string) (c : ascii) (r : string) :
  JsString.trimStart s = String c r -> JsString.is_space c = false.
Proof.
  induction s as [|d s IH]; simpl; [discriminate|].
  destruct (JsString.is_space d) eqn:Hd; [exact IH|].
  intros [= <- _]. exact Hd.
Qed.

Lemma trimEnd_empty_iff (s : string) :
  JsString.trimEnd s = EmptyString <-> all_space s.
Proof.
  unfold all_space. induction s as [|c s IH]; simpl.
  - split; [constructor|reflexivity].
  - destruct (JsString.trimEnd s) as [|e r].
    + destruct (JsString.is_space c) eqn:Hc.
      * split; [intros _; constructor; [exact Hc|apply IH; reflexivity]|reflexivity].
      * split; [discriminate|]. intros Hs. inversion Hs; congruence.
    + split; [discriminate|]. intros Hs. inversion Hs as [|? ? _ Hs']; subst.
      apply IH in Hs'. discriminate Hs'.
Qed.

Lemma trim_empty_iff (s : string) :
  JsString.trim s = EmptyString <-> all_space s.
Proof.
  unfold JsString.trim. rewrite trimEnd_empty_iff. split.
  - intros Hs. apply trimStart_empty_iff.
    destruct (JsString.trimStart s) as [|c r] eqn:Ht; [reflexivity|].
    pose proof (trimStart_starts_without_space s c r Ht) as Hc.
    inversion Hs; congruence.
  - intros Hs. apply trimStart_empty_iff in Hs. rewrite Hs. constructor.
Qed.

(** ** Ticker normalisation: shape of the output *)

Lemma normalize_ticker_includes_dot (ex t : string) :
  JsString.includes "." (normalize_ticker ex t) = true.
Proof.
  unfold normalize_ticker.
  destruct (JsString.includes "." (JsString.toUpperCase (JsString.trim t))) eqn:Hd.
  - exact Hd.
  - rewrite includes_app. simpl. apply orb_true_r.
Qed.

Lemma normalize_ticker_blank (ex t : string) :
  JsString.trim t = EmptyString -> normalize_ticker ex t = "." +:+ ex.
Proof. intros Ht. unfold normalize_ticker. rewrite Ht. reflexivity. Qed.

Lemma normalize_ticker_without_comma (ex t : string) :
  JsString.includes "," ex = false ->
  JsString.includes "," t = false ->
  JsString.includes "," (normalize_ticker ex t) = false.
Proof.
  intros Hex Ht.
  assert (Hb : JsString.includes "," (JsString.toUpperCase (JsString.trim t)) = false)
    by (rewrite includes_comma_toUpperCase; apply includes_trim_le, Ht).
  unfold normalize_ticker. destruct (JsString.includes "." _); [exact Hb|].
  rewrite includes_app, Hb. simpl. exact Hex.
Qed.

(** X1: one piece is sent per comma-separated element, none is dropped;
    every piece contains a "."; a blank element becomes the bare suffix. *)
Theorem normalized_pieces_are_dotted (payload : Payload) :
  let pieces :=
    normalize_ticker (exchange payload) <$> JsString.split "," (tickers payload) in
  normalize_tickers payload = JsString.join "," pieces
  /\ length pieces = 1 + JsString.occurrences "," (tickers payload)
  /\ Forall (fun p => JsString.includes "." p = true) pieces
  /\ (forall (i : nat) (t : string),
        JsString.split "," (tickers payload) !! i = Some t ->
        all_space t ->
        pieces !! i = Some ("." +:+ exchange payload)).
Proof.
  intros pieces. subst pieces. split; [reflexivity|]. split; [|split].
  - rewrite length_fmap. apply split_length.
  - apply Forall_fmap, Forall_forall. intros t _.
    apply normalize_ticker_includes_dot.
  - intros i t Hi Ht. rewrite list_lookup_fmap, Hi. simpl.
    rewrite (normalize_ticker_blank _ _ (proj2 (trim_empty_iff t) Ht)).
    reflexivity.
Qed.

Lemma normalized_pieces_are_dotted_witness :
  normalize_tickers (sample_payload "tcs, ,") = "TCS.NS,.NS,.NS".
Proof.
  destruct (normalized_pieces_are_dotted (sample_payload "tcs, ,")) as (H1 & _).
  exact H1.
Defined.

Lemma normalize_tickers_of_canonical (payload : Payload) :
  Forall (fun t => JsString.toUpperCase (JsString.trim t) = t
                   /\ JsString.includes "." t = true)
         (JsString.split "," (tickers payload)) ->
  normalize_tickers payload = tickers payload.
Proof.
  intros Hall. unfold normalize_tickers.
  replace (normalize_ticker (exchange payload) <$> JsString.split "," (tickers payload))
    with (JsString.split "," (tickers payload)).
  - apply (join_split ","%char).
  - symmetry. rewrite <- (list_fmap_id (JsString.split "," (tickers payload))) at 2.
    apply Forall_fmap_ext_1. eapply Forall_impl; [exact Hall|].
    intros t [Hc Hd]. rewrite (normalize_ticker_dotted _ _ Hd). exact Hc.
Qed.

(** X2: an input whose elements are all trimmed, upper-case and dotted is
    sent as it was typed, as the "Ticker " field of the request body. *)
Theorem canonical_input_is_sent_unchanged (payload : Payload) :
  Forall (fun t => JsString.toUpperCase (JsString.trim t) = t
                   /\ JsString.includes "." t = true)
         (JsString.split "," (tickers payload)) ->
  normalize_tickers payload = tickers payload
  /\ get_opt "Ticker " (requestBody payload) = VStr (tickers payload).
Proof.
  intros Hall. pose proof (normalize_tickers_of_canonical payload Hall) as Hn.
  split; [exact Hn|].
  unfold requestBody. simpl. rewrite lookup_insert_eq, Hn. reflexivity.
Qed.

Lemma canonical_input_is_sent_unchanged_witness :
  normalize_tickers (sample_payload "TCS.NS,RELIANCE.BO") = "TCS.NS,RELIANCE.BO".
Proof.
  destruct (canonical_input_is_sent_unchanged (sample_payload "TCS.NS,RELIANCE.BO"))
    as [Hn _]; [repeat constructor|exact Hn].
Defined.

(** X3: on an error array whose [error] converts to a string [text], for
    an exchange without a comma, exactly one invalid record is synthesised
    per comma-separated element of the input, in input order, named after
    the trimmed normalised ticker and carrying the reason
    "Invalid ticker: " followed by [text]. *)
Theorem error_array_one_record_per_ticker {P : Platform} (payload : Payload)
    (l : list value) (text : string) :
  JsString.includes "," (exchange payload) = false ->
  truthy (get_opt "error" (first_element l)) = true ->
  ToString Number_toString (get_opt "error" (first_element l)) = inr text ->
  let pieces :=
    normalize_ticker (exchange payload) <$> JsString.split "," (tickers payload) in
  let records :=
    invalid_ticker_fields ("Invalid ticker: " +:+ text) <$> pieces in
  handle_parsed (normalize_tickers payload) (VArr l)
  = inr (VObj (<["results" := VArr records]> ∅))
  /\ length records = 1 + JsString.occurrences "," (tickers payload)
  /\ (forall (i : nat) (p : string),
        pieces !! i = Some p ->
        exists r : gmap string value,
          records !! i = Some (VObj r)
          /\ r !! "symbol" = Some (VStr (JsString.trim p))
          /\ r !! "isInvalid" = Some (VBool true)
          /\ r !! "current_price" = Some (VNum 0%float)
          /\ r !! "invalidReason" = Some (VStr ("Invalid ticker: " +:+ text))).
Proof.
  intros Hex Ht Htext pieces records. subst pieces records. split; [|split].
  - rewrite (handle_parsed_error_array _ _ Ht).
    rewrite (error_response_printed _ _ _ Htext).
    unfold normalize_tickers.
    rewrite (split_join ","%char).
    + reflexivity.
    + intros Hnil. apply fmap_nil_inv in Hnil.
      exact (split_not_nil _ _ Hnil).
    + apply Forall_fmap. eapply Forall_impl.
      * apply (split_pieces_without_separator ","%char).
      * intros t Hc. apply normalize_ticker_without_comma; assumption.
  - rewrite !length_fmap. apply split_length.
  - intros i p Hi. eexists. rewrite list_lookup_fmap, Hi. simpl.
    split; [reflexivity|]. repeat split; reflexivity.
Qed.

Lemma error_array_one_record_per_ticker_witness :
  exists r1 r2 r3 : value,
    handle_parsed (P := offline) (normalize_tickers (sample_payload "tcs, reliance.bo ,"))
      error_body
    = inr (VObj (<["results" := VArr [r1; r2; r3]]> ∅))
    /\ get_opt "symbol" r1 = VStr "TCS.NS"
    /\ get_opt "symbol" r2 = VStr "RELIANCE.BO"
    /\ get_opt "symbol" r3 = VStr ".NS".
Proof.
  destruct (error_array_one_record_per_ticker (P := offline)
              (sample_payload "tcs, reliance.bo ,")
              [VObj (<["error" := VStr "bad ticker"]> ∅)] "bad ticker")
    as (Hresp & _).
  { reflexivity. }
  { vm_compute. reflexivity. }
  { vm_compute. reflexivity. }
  eexists _, _, _. split; [exact Hresp|].
  repeat split; vm_compute; reflexivity.
Defined.

(** ** Ticker normalisation is idempotent *)

Lemma toUpperCase_idempotent (s : string) :
  JsString.toUpperCase (JsString.toUpperCase s) = JsString.toUpperCase s.
Proof.
  induction s as [|c s IH]; simpl; [reflexivity|].
  rewrite upper_char_idempotent, IH. reflexivity.
Qed.

Lemma toUpperCase_app (a b : string) :
  JsString.toUpperCase (a +:+ b) = JsString.toUpperCase a +:+ JsString.toUpperCase b.
Proof. induction a as [|c a IH]; simpl; [reflexivity|]. rewrite IH. reflexivity. Qed.

Lemma trimStart_toUpperCase (s : string) :
  JsString.trimStart (JsString.toUpperCase s)
  = JsString.toUpperCase (JsString.trimStart s).
Proof.
  induction s as [|c s IH]; simpl; [reflexivity|].
  rewrite upper_char_is_space. destruct (JsString.is_space c); [exact IH|reflexivity].
Qed.

Lemma trimEnd_toUpperCase (s : string) :
  JsString.trimEnd (JsString.toUpperCase s)
  = JsString.toUpperCase (JsString.trimEnd s).
Proof.
  induction s as [|c s IH]; simpl; [reflexivity|].
  rewrite IH, upper_char_is_space.
  destruct (JsString.trimEnd s) as [|e r]; simpl.
  - destruct (JsString.is_space c); reflexivity.
  - reflexivity.
Qed.

Lemma trim_toUpperCase (s : string) :
  JsString.trim (JsString.toUpperCase s) = JsString.toUpperCase (JsString.trim s).
Proof.
  unfold JsString.trim. rewrite trimStart_toUpperCase. apply trimEnd_toUpperCase.
Qed.

Lemma trimEnd_idempotent (s : string) :
  JsString.trimEnd (JsString.trimEnd s) = JsString.trimEnd s.
Proof.
  induction s as [|c s IH]; simpl; [reflexivity|].
  destruct (JsString.trimEnd s) as [|e r] eqn:Hs.
  - destruct (JsString.is_space c) eqn:Hc; simpl; [reflexivity|].
    rewrite Hc. reflexivity.
  - change (JsString.trimEnd (String c (String e r)))
      with (match JsString.trimEnd (String e r) with
            | EmptyString =>
                if JsString.is_space c then EmptyString else String c EmptyString
            | String a b => String c (String a b)
            end).
    rewrite IH. reflexivity.
Qed.

Lemma trimEnd_keeps_head (c : ascii) (r : string) :
  JsString.is_space c = false ->
  exists r' : string, JsString.trimEnd (String c r) = String c r'.
Proof.
  intros Hc. simpl. destruct (JsString.trimEnd r) as [|e q].
  - rewrite Hc. eauto.
  - eauto.
Qed.

Lemma trimStart_fixed (c : ascii) (r : string) :
  JsString.is_space c = false -> JsString.trimStart (String c r) = String c r.
Proof. intros Hc. simpl. rewrite Hc. reflexivity. Qed.

Lemma trim_idempotent (s : string) :
  JsString.trim (JsString.trim s) = JsString.trim s.
Proof.
  unfold JsString.trim.
  destruct (JsString.trimStart s) as [|c r] eqn:Hs; [reflexivity|].
  pose proof (trimStart_starts_without_space s c r Hs) as Hc.
  destruct (trimEnd_keeps_head c r Hc) as (r' & Hr).
  rewrite Hr, (trimStart_fixed c r' Hc), <- Hr. apply trimEnd_idempotent.
Qed.

Lemma trimEnd_app (a b : string) :
  JsString.trimEnd b <> EmptyString ->
  JsString.trimEnd (a +:+ b) = a +:+ JsString.trimEnd b.
Proof.
  intros Hb. induction a as [|c a IH]; [reflexivity|].
  change (JsString.trimEnd (String c (a +:+ b))
          = String c (a +:+ JsString.trimEnd b)).
  simpl. rewrite IH.
  destruct (a +:+ JsString.trimEnd b) as [|e r] eqn:Hab; [|reflexivity].
  exfalso. destruct a; simpl in Hab; [contradiction|discriminate].
Qed.

Lemma trimEnd_dot_suffix (ex : string) :
  JsString.trimEnd ex = ex -> JsString.trimEnd ("." +:+ ex) = "." +:+ ex.
Proof.
  intros Hex. destruct ex as [|c r]; [reflexivity|].
  change (JsString.trimEnd ("." +:+ String c r))
    with (match JsString.trimEnd (String c r) with
          | EmptyString => String "."%char EmptyString
          | String a b => String "."%char (String a b)
          end).
  rewrite Hex. reflexivity.
Qed.

(** A trimmed, upper-cased element followed by the suffix is stable. *)
Lemma suffixed_ticker_is_stable (ex t : string) :
  JsString.toUpperCase ex = ex -> JsString.trimEnd ex = ex ->
  let p := JsString.toUpperCase (JsString.trim t) +:+ "." +:+ ex in
  JsString.toUpperCase (JsString.trim p) = p.
Proof.
  intros Hup Hend p. subst p.
  assert (Hdot : JsString.trimEnd ("." +:+ ex) = "." +:+ ex)
    by (apply trimEnd_dot_suffix, Hend).
  assert (Htrim : JsString.trim (JsString.toUpperCase (JsString.trim t) +:+ "." +:+ ex)
                  = JsString.toUpperCase (JsString.trim t) +:+ "." +:+ ex).
  { unfold JsString.trim at 1.
    assert (Hstart : JsString.trimStart
                       (JsString.toUpperCase (JsString.trim t) +:+ "." +:+ ex)
                     = JsString.toUpperCase (JsString.trim t) +:+ "." +:+ ex).
    { unfold JsString.trim.
      destruct (JsString.trimStart t) as [|c r] eqn:Hs; [reflexivity|].
      pose proof (trimStart_starts_without_space t c r Hs) as Hc.
      destruct (trimEnd_keeps_head c r Hc) as (r' & ->). simpl.
      rewrite upper_char_is_space, Hc. reflexivity. }
    rewrite Hstart. rewrite trimEnd_app; [rewrite Hdot; reflexivity|].
    rewrite Hdot. discriminate. }
  rewrite Htrim, !toUpperCase_app, toUpperCase_idempotent, Hup. reflexivity.
Qed.

Lemma normalize_ticker_is_stable (ex t : string) :
  JsString.toUpperCase ex = ex -> JsString.trimEnd ex = ex ->
  JsString.toUpperCase (JsString.trim (normalize_ticker ex t)) = normalize_ticker ex t.
Proof.
  intros Hup Hend. unfold normalize_ticker.
  destruct (JsString.includes "." (JsString.toUpperCase (JsString.trim t))).
  - rewrite <- trim_toUpperCase, toUpperCase_idempotent, trim_toUpperCase,
      trim_idempotent. reflexivity.
  - apply suffixed_ticker_is_stable; assumption.
Qed.

(** X4: for an exchange suffix that is upper-case, has no trailing white
    space and no comma (such as "NS" or "BO"), normalising the normalised
    ticker string again changes nothing. *)
Theorem normalize_tickers_idempotent (payload : Payload) :
  JsString.toUpperCase (exchange payload) = exchange payload ->
  JsString.trimEnd (exchange payload) = exchange payload ->
  JsString.includes "," (exchange payload) = false ->
  normalize_tickers
    {| tickers := normalize_tickers payload; format := format payload;
       timeHorizon := timeHorizon payload; riskTolerance := riskTolerance payload;
       exchange := exchange payload |}
  = normalize_tickers payload.
Proof.
  intros Hup Hend Hcomma. apply normalize_tickers_of_canonical. simpl.
  unfold normalize_tickers. rewrite (split_join ","%char).
  - apply Forall_fmap, Forall_forall. intros t _. simpl. split.
    + apply normalize_ticker_is_stable; assumption.
    + apply normalize_ticker_includes_dot.
  - intros Hnil. apply fmap_nil_inv in Hnil. exact (split_not_nil _ _ Hnil).
  - apply Forall_fmap. eapply Forall_impl.
    + apply (split_pieces_without_separator ","%char).
    + intros t Hc. apply normalize_ticker_without_comma; assumption.
Qed.

Lemma normalize_tickers_idempotent_witness :
  normalize_tickers (sample_payload "TCS.NS,RELIANCE.BO,.NS")
  = normalize_tickers (sample_payload " tcs, reliance.bo ,").
Proof.
  exact (normalize_tickers_idempotent (sample_payload " tcs, reliance.bo ,")
           eq_refl eq_refl eq_refl).
Defined.

(** ** Validation: when it throws, what it keeps *)

Lemma validate_record_nullish (r : value) :
  nullish r = true -> validate_record r = throw (NullishAccess "error").
Proof. destruct r; try discriminate; reflexivity. Qed.

Lemma validate_record_not_nullish (r : value) :
  nullish r = false -> exists r' : value, validate_record r = inr r'.
Proof.
  intros Hr. unfold validate_record.
  destruct r; try discriminate Hr; simpl;
    repeat match goal with
           | |- context [if ?b then _ else _] => destruct b; simpl
           end; eauto.
Qed.

Lemma map_result_length {A B : Type} (f : A -> result B) (l : list A) (l' : list B) :
  map_result f l = inr l' ->
  length l' = length l
  /\ forall (i : nat) (x : A),
       l !! i = Some x -> exists y : B, f x = inr y /\ l' !! i = Some y.
Proof.
  revert l'. induction l as [|a l IH]; simpl; intros l'.
  - intros [= <-]. split; [reflexivity|]. intros i x Hi. discriminate Hi.
  - destruct (f a) as [t|b] eqn:Hfa; simpl; [discriminate|].
    destruct (map_result f l) as [t|bs] eqn:Hl; simpl; [discriminate|].
    intros [= <-]. destruct (IH bs eq_refl) as [Hlen Hpt].
    split; [simpl; congruence|].
    intros [|i] x Hi; simpl in *.
    + injection Hi as <-. eauto.
    + apply Hpt, Hi.
Qed.

Lemma map_result_validate_throws (l : list value) (t : thrown) :
  map_result validate_record l = inl t
  <-> Exists (fun r => nullish r = true) l
      /\ t = ThrownError (NullishAccess "error").
Proof.
  revert t. induction l as [|r l IH]; intros t; simpl.
  - split; [discriminate|]. intros [Hex _]. inversion Hex.
  - destruct (nullish r) eqn:Hr.
    + rewrite (validate_record_nullish r Hr). simpl. split.
      * intros [= <-]. split; [left; exact Hr|reflexivity].
      * intros [_ ->]. reflexivity.
    + destruct (validate_record_not_nullish r Hr) as (r' & ->). simpl.
      destruct (map_result validate_record l) as [t'|l'] eqn:Hl; simpl.
      * destruct (proj1 (IH t') eq_refl) as [Hex' Ht']. split.
        -- intros [= <-]. split; [right; exact Hex'|exact Ht'].
        -- intros [_ ->]. rewrite Ht'. reflexivity.
      * split; [discriminate|]. intros [Hex ->].
        inversion Hex as [? ? Hr'|? ? Hex']; subst; [congruence|].
        discriminate (proj2 (IH _) (conj Hex' eq_refl)).
Qed.

Lemma get_results_truthy_object (v : value) :
  truthy (get_opt "results" v) = true -> exists m : gmap string value, v = VObj m.
Proof. destruct v; try discriminate; eauto. Qed.

Lemma normal_response_throws_iff {P : Platform} (parsed : value) (t : thrown) :
  normal_response parsed = inl t
  <-> (nullish (body_record parsed) = true
       /\ t = ThrownError (NullishAccess "results"))
      \/ (truthy (get_opt "results" (body_record parsed)) = true
          /\ (forall l : list value, get_opt "results" (body_record parsed) <> VArr l)
          /\ t = ThrownError (NotCallable "map"))
      \/ (exists l : list value,
            get_opt "results" (body_record parsed) = VArr l
            /\ Exists (fun r => nullish r = true) l
            /\ t = ThrownError (NullishAccess "error")).
Proof.
  unfold normal_response. fold (body_record parsed).
  destruct (nullish (body_record parsed)) eqn:Hn.
  - assert (Hg : get "results" (body_record parsed)
                 = throw (NullishAccess "results"))
      by (destruct (body_record parsed); try discriminate Hn; reflexivity).
    assert (Hu : get_opt "results" (body_record parsed) = VUndefined)
      by (destruct (body_record parsed); try discriminate Hn; reflexivity).
    rewrite Hg, Hu. simpl. split.
    + intros [= <-]. left. auto.
    + intros [[_ ->] | [(Ht & _) | (l & Hl & _)]];
        [reflexivity|discriminate Ht|discriminate Hl].
  - assert (Hg : get "results" (body_record parsed)
                 = inr (get_opt "results" (body_record parsed)))
      by (destruct (body_record parsed); try discriminate Hn; reflexivity).
    rewrite Hg. simpl.
    destruct (truthy (get_opt "results" (body_record parsed))) eqn:Ht.
    + destruct (get_opt "results" (body_record parsed)) as [| | | | |l|m] eqn:Hr;
        try discriminate Ht; simpl.
      * split.
        -- intros [= <-]. right. left. repeat split; [discriminate].
        -- intros [[Hc _] | [(_ & _ & ->) | (l & Hl & _)]];
             [discriminate Hc|reflexivity|discriminate Hl].
      * split.
        -- intros [= <-]. right. left. repeat split; [discriminate].
        -- intros [[Hc _] | [(_ & _ & ->) | (l & Hl & _)]];
             [discriminate Hc|reflexivity|discriminate Hl].
      * split.
        -- intros [= <-]. right. left. repeat split; [discriminate].
        -- intros [[Hc _] | [(_ & _ & ->) | (l & Hl & _)]];
             [discriminate Hc|reflexivity|discriminate Hl].
      * destruct (map_result validate_record l) as [t'|l'] eqn:Hl; simpl.
        -- split.
           ++ intros [= <-]. right. right. exists l.
              destruct (proj1 (map_result_validate_throws l t') Hl) as [Hex ->].
              auto.
           ++ intros [[Hc _] | [(_ & Hne & _) | (l0 & [= <-] & Hex & ->)]];
                [discriminate Hc|exfalso; exact (Hne l eq_refl)|].
              f_equal.
              destruct (proj1 (map_result_validate_throws l t') Hl) as [_ ->].
              reflexivity.
        -- split; [discriminate|].
           intros [[Hc _] | [(_ & Hne & _) | (l0 & [= <-] & Hex & ->)]];
             [discriminate Hc|exfalso; exact (Hne l eq_refl)|].
           pose proof (proj2 (map_result_validate_throws l _) (conj Hex eq_refl))
             as Hc.
           rewrite Hl in Hc. discriminate Hc.
      * split.
        -- intros [= <-]. right. left. repeat split; [discriminate].
        -- intros [[Hc _] | [(_ & _ & ->) | (l & Hl & _)]];
             [discriminate Hc|reflexivity|discriminate Hl].
    + split; [discriminate|].
      intros [[Hc _] | [(Ht' & _) | (l & Hl & _)]];
        [discriminate Hc|discriminate Ht'|].
      rewrite Hl in Ht. discriminate Ht.
Qed.

(** X5: processing a parsed body throws in exactly four situations: the
    body is an error array whose [error] cannot be converted to a string
    (it is, or holds in nested arrays, an object with an own [toString]
    property); or it is no error array and the body (or the first element
    of an array body) is [undefined] or [null], or its [results] is truthy
    but not an array, or its [results] array holds an [undefined] or [null]
    element. *)
Theorem body_rejection_causes {P : Platform} (tk : string) (parsed : value)
    (t : thrown) :
  handle_parsed tk parsed = inl t
  <-> (is_error_array parsed = true
       /\ printable (get_opt "error" (body_record parsed)) = false
       /\ t = ThrownError NotConvertible)
      \/ (is_error_array parsed = false
          /\ ((nullish (body_record parsed) = true
               /\ t = ThrownError (NullishAccess "results"))
              \/ (truthy (get_opt "results" (body_record parsed)) = true
                  /\ (forall l : list value,
                        get_opt "results" (body_record parsed) <> VArr l)
                  /\ t = ThrownError (NotCallable "map"))
              \/ (exists l : list value,
                    get_opt "results" (body_record parsed) = VArr l
                    /\ Exists (fun r => nullish r = true) l
                    /\ t = ThrownError (NullishAccess "error")))).
Proof.
  rewrite <- normal_response_throws_iff.
  assert (Hplain : is_error_array parsed = false ->
                   handle_parsed tk parsed = normal_response parsed).
  { destruct parsed as [| | | | |l|m]; try reflexivity. simpl.
    intros ->. reflexivity. }
  destruct (is_error_array parsed) eqn:Harr.
  - destruct parsed as [| | | | |l|m]; try discriminate Harr.
    simpl in Harr. rewrite (handle_parsed_error_array tk l Harr). simpl body_record.
    destruct (ToString_printable Number_toString (get_opt "error" (first_element l)))
      as [Hp1 Hp2].
    destruct (printable (get_opt "error" (first_element l))) eqn:Hp.
    + destruct (Hp1 eq_refl) as (text & Htext).
      rewrite (error_response_printed _ _ _ Htext). split; [discriminate|].
      intros [(_ & Hc & _) | (Hc & _)]; discriminate Hc.
    + rewrite (error_response_throws _ _ _ (Hp2 eq_refl)). split.
      * intros [= <-]. left. auto.
      * intros [(_ & _ & ->) | (Hc & _)]; [reflexivity|discriminate Hc].
  - rewrite (Hplain eq_refl). split.
    + intros Hh. right. split; [reflexivity|exact Hh].
    + intros [(Hc & _) | (_ & Hh)]; [discriminate Hc|exact Hh].
Qed.

Lemma body_rejection_causes_witness :
  handle_parsed (P := offline) "AAA.NS" (VArr [])
  = inl (ThrownError (NullishAccess "results"))
  /\ handle_parsed (P := offline) "AAA.NS"
       (VObj (<["results" := VStr "none"]> ∅))
     = inl (ThrownError (NotCallable "map"))
  /\ handle_parsed (P := offline) "AAA.NS"
       (VObj (<["results" := VArr [VObj priced_record; VNull]]> ∅))
     = inl (ThrownError (NullishAccess "error"))
  /\ handle_parsed (P := offline) "AAA.NS" unprintable_error_body
     = inl (ThrownError NotConvertible).
Proof.
  split; [|split; [|split]]; apply body_rejection_causes.
  - right. split; [reflexivity|]. left. split; reflexivity.
  - right. split; [reflexivity|]. right. left. split; [reflexivity|].
    split; [|reflexivity].
    intros l Hl. vm_compute in Hl. discriminate Hl.
  - right. split; [reflexivity|]. right. right.
    exists [VObj priced_record; VNull].
    split; [vm_compute; reflexivity|]. split; [|reflexivity].
    right. left. reflexivity.
  - left. repeat split; vm_compute; reflexivity.
Defined.

Lemma mark_invalid_again (m : gmap string value) (reason : value) :
  mark_invalid (mark_invalid (VObj m) reason) reason = mark_invalid (VObj m) reason.
Proof.
  unfold mark_invalid. simpl. f_equal. apply map_eq. intros k.
  destruct (decide (k = "invalidReason")) as [->|Hk1].
  - rewrite !lookup_insert_eq. reflexivity.
  - rewrite !(lookup_insert_ne _ "invalidReason") by congruence.
    destruct (decide (k = "isInvalid")) as [->|Hk2].
    + rewrite !lookup_insert_eq. reflexivity.
    + rewrite !(lookup_insert_ne _ "isInvalid") by congruence.
      rewrite !lookup_insert_ne by congruence. reflexivity.
Qed.

Lemma mark_invalid_lookup (m : gmap string value) (reason : value) (k : string) :
  k <> "isInvalid" -> k <> "invalidReason" ->
  get_opt k (mark_invalid (VObj m) reason) = default VUndefined (m !! k).
Proof.
  intros H1 H2. unfold mark_invalid. simpl.
  rewrite !lookup_insert_ne by congruence. reflexivity.
Qed.

(** X6: validation is idempotent on records: validating a validated
    record returns it unchanged. *)
Theorem validate_record_idempotent (m : gmap string value) (r' : value) :
  validate_record (VObj m) = inr r' -> validate_record r' = inr r'.
Proof.
  assert (Hother : forall (x : value) (k : string),
             k <> "isInvalid" -> k <> "invalidReason" ->
             (<["invalidReason" := x]> (<["isInvalid" := VBool true]> m)) !! k
             = m !! k).
  { intros x k H1 H2. rewrite !lookup_insert_ne by congruence. reflexivity. }
  destruct (truthy (default VUndefined (m !! "error"))) eqn:He.
  - destruct (m !! "error") as [e|] eqn:Hm; [|discriminate He]. simpl in He.
    rewrite (validate_record_error m e Hm He). intros [= <-].
    unfold mark_invalid at 1 2. simpl spread.
    rewrite (validate_record_error _ e); [|rewrite Hother by discriminate; exact Hm|exact He].
    rewrite Hother by discriminate.
    f_equal. apply (mark_invalid_again m).
  - rewrite (validate_record_falsy_error m He). cbv zeta.
    destruct (negb (truthy (default VUndefined (m !! "current_price")))
              || strict_eq_zero (default VUndefined (m !! "current_price")))
      eqn:Hp; intros [= <-].
    + unfold mark_invalid at 1 2. simpl spread.
      rewrite validate_record_falsy_error
        by (rewrite Hother by discriminate; exact He).
      cbv zeta. rewrite Hother by discriminate. rewrite Hp.
      f_equal. apply (mark_invalid_again m).
    + rewrite (validate_record_falsy_error m He). cbv zeta. rewrite Hp.
      reflexivity.
Qed.

Lemma validate_record_idempotent_witness :
  exists r' : value,
    validate_record (VObj unpriced_record) = inr r'
    /\ validate_record r' = inr r'
    /\ get_opt "isInvalid" r' = VBool true.
Proof.
  exists (mark_invalid (VObj unpriced_record) (VStr invalid_price_reason)).
  assert (H1 : validate_record (VObj unpriced_record)
               = inr (mark_invalid (VObj unpriced_record)
                        (VStr invalid_price_reason)))
    by (vm_compute; reflexivity).
  split; [exact H1|]. split.
  - exact (validate_record_idempotent unpriced_record _ H1).
  - vm_compute. reflexivity.
Defined.

Lemma strict_eq_zero_is_falsy (v : value) :
  strict_eq_zero v = true -> truthy v = false.
Proof.
  destruct v as [| | |x| | |]; try discriminate. simpl. intros Hz.
  change (PrimFloat.is_zero x) with (PrimFloat.eqb x 0%float).
  rewrite Hz. reflexivity.
Qed.

(** X7: a record without a truthy [error] is flagged for its price
    exactly when [current_price] is falsy (absent, [null], [false], [0],
    [-0], [NaN] or the empty string); the comparison with [0] on line 189
    never changes the outcome, and any truthy price passes, a string
    included. *)
Theorem price_check_is_truthiness (m : gmap string value) :
  truthy (default VUndefined (m !! "error")) = false ->
  validate_record (VObj m)
  = inr (if truthy (default VUndefined (m !! "current_price")) then VObj m
         else mark_invalid (VObj m) (VStr invalid_price_reason)).
Proof.
  intros He. rewrite (validate_record_falsy_error m He). cbv zeta.
  destruct (truthy (default VUndefined (m !! "current_price"))) eqn:Hp; simpl.
  - destruct (strict_eq_zero (default VUndefined (m !! "current_price"))) eqn:Hz;
      [|reflexivity].
    apply strict_eq_zero_is_falsy in Hz. congruence.
  - reflexivity.
Qed.

Lemma price_check_is_truthiness_witness :
  validate_record (VObj (<["symbol" := VStr "AAA.NS"]>
                        (<["current_price" := VStr "0"]> ∅)))
  = inr (VObj (<["symbol" := VStr "AAA.NS"]> (<["current_price" := VStr "0"]> ∅)))
  /\ exists r' : value,
       validate_record (VObj (<["symbol" := VStr "AAA.NS"]>
                             (<["current_price" := VNull]> ∅))) = inr r'
       /\ get_opt "isInvalid" r' = VBool true.
Proof.
  split.
  - rewrite price_check_is_truthiness by (vm_compute; reflexivity).
    vm_compute. reflexivity.
  - eexists. split.
    + rewrite price_check_is_truthiness by (vm_compute; reflexivity).
      reflexivity.
    + vm_compute. reflexivity.
Defined.

(** X8: when a body with a [results] array is processed without an
    exception, the response is the body with [results] replaced by an
    array of the same length holding, position by position, the validated
    records; every other top-level field of the body is kept. *)
Theorem response_keeps_count_and_fields {P : Platform} (tk : string)
    (m : gmap string value) (l : list value) (v : value) :
  m !! "results" = Some (VArr l) ->
  handle_parsed tk (VObj m) = inr v ->
  exists l' : list value,
    v = VObj (<["results" := VArr l']> m)
    /\ length l' = length l
    /\ (forall (i : nat) (r : value),
          l !! i = Some r ->
          exists r' : value, validate_record r = inr r' /\ l' !! i = Some r')
    /\ (forall k : string, k <> "results" -> get_opt k v = get_opt k (VObj m)).
Proof.
  intros Hm. unfold handle_parsed, normal_response. simpl. rewrite Hm. simpl.
  destruct (map_result validate_record l) as [t|l'] eqn:Hl; simpl; [discriminate|].
  intros [= <-]. exists l'. split; [reflexivity|].
  destruct (map_result_length _ _ _ Hl) as [Hlen Hpt].
  split; [exact Hlen|]. split; [exact Hpt|].
  intros k Hk. simpl. rewrite lookup_insert_ne by congruence. reflexivity.
Qed.

Lemma response_keeps_count_and_fields_witness :
  exists l' : list value,
    handle_parsed (P := offline) "AAA.NS,BBB.NS"
      (VObj (<["as_of" := VStr "2025-01-31"]> sample_report))
    = inr (VObj (<["results" := VArr l']> (<["as_of" := VStr "2025-01-31"]> sample_report)))
    /\ length l' = 2.
Proof.
  assert (H1 : handle_parsed (P := offline) "AAA.NS,BBB.NS"
                 (VObj (<["as_of" := VStr "2025-01-31"]> sample_report))
               = inr (VObj (<["results" :=
                                VArr [mark_invalid (VObj unpriced_record)
                                        (VStr invalid_price_reason);
                                      VObj priced_record]]>
                              (<["as_of" := VStr "2025-01-31"]> sample_report))))
    by (vm_compute; reflexivity).
  assert (H0 : (<["as_of" := VStr "2025-01-31"]> sample_report) !! "results"
               = Some (VArr [VObj unpriced_record; VObj priced_record]))
    by (vm_compute; reflexivity).
  destruct (response_keeps_count_and_fields (P := offline) "AAA.NS,BBB.NS"
              _ _ _ H0 H1) as (l' & Hv & Hlen & _).
  exists l'. split; [|exact Hlen].
  rewrite H1. f_equal. exact Hv.
Defined.

(** ** The loop: requests and rejections *)

Lemma callN8N_cases {P : Platform} (payload : Payload) :
  (exists v : value,
     attempt (normalize_tickers payload) 0 (make_request payload primaryUrl) = inr v
     /\ callN8N payload = ([make_request payload primaryUrl], inr v))
  \/ (exists (t1 : thrown) (v : value),
        attempt (normalize_tickers payload) 0 (make_request payload primaryUrl) = inl t1
        /\ attempt (normalize_tickers payload) 1 (make_request payload fallbackUrl)
           = inr v
        /\ callN8N payload
           = ([make_request payload primaryUrl; make_request payload fallbackUrl],
              inr v))
  \/ (exists t1 t2 : thrown,
        attempt (normalize_tickers payload) 0 (make_request payload primaryUrl) = inl t1
        /\ attempt (normalize_tickers payload) 1 (make_request payload fallbackUrl)
           = inl t2
        /\ callN8N payload
           = ([make_request payload primaryUrl; make_request payload fallbackUrl],
              inl (ThrownError (as_Error t2)))).
Proof.
  destruct (attempt (normalize_tickers payload) 0 (make_request payload primaryUrl))
    as [t1|v] eqn:H1.
  - rewrite (callN8N_primary_throws payload t1 H1).
    destruct (attempt (normalize_tickers payload) 1
                (make_request payload fallbackUrl)) as [t2|v] eqn:H2.
    + right. right. exists t1, t2. auto.
    + right. left. exists t1, v. auto.
  - left. exists v. split; [reflexivity|].
    apply callN8N_primary_returns, H1.
Qed.

Lemma callN8N_rejects_with_Error {P : Platform} (payload : Payload) (t : thrown) :
  snd (callN8N payload) = inl t -> exists e : js_error, t = ThrownError e.
Proof.
  intros Hrej. destruct (callN8N_cases payload)
    as [(v & _ & Hc) | [(t1 & v & _ & _ & Hc) | (t1 & t2 & _ & _ & Hc)]];
    rewrite Hc in Hrej; simpl in Hrej; try discriminate Hrej.
  injection Hrej as <-. eauto.
Qed.

(** X9: whatever the platform answers, [callN8N] sends one request to the
    primary URL and at most one more, to the fallback URL; each is a POST
    of the same JSON body, whose output format is always "Detailed": the
    [format] of the payload never reaches the service and never changes
    the outcome. *)
Theorem format_never_reaches_the_service {P : Platform} (payload : Payload) :
  (fst (callN8N payload) = [make_request payload primaryUrl]
   \/ fst (callN8N payload)
      = [make_request payload primaryUrl; make_request payload fallbackUrl])
  /\ Forall (fun req => method req = "POST"
                        /\ headers req = [("Content-Type", "application/json")]
                        /\ body req = JSON_stringify (requestBody payload))
            (fst (callN8N payload))
  /\ get_opt "Output Format" (requestBody payload) = VStr "Detailed"
  /\ (forall fmt : string,
        callN8N {| tickers := tickers payload; format := fmt;
                   timeHorizon := timeHorizon payload;
                   riskTolerance := riskTolerance payload;
                   exchange := exchange payload |}
        = callN8N payload).
Proof.
  split; [|split; [|split]].
  - destruct (callN8N_cases payload)
      as [(v & _ & ->) | [(t1 & v & _ & _ & ->) | (t1 & t2 & _ & _ & ->)]]; auto.
  - destruct (callN8N_cases payload)
      as [(v & _ & ->) | [(t1 & v & _ & _ & ->) | (t1 & t2 & _ & _ & ->)]];
      simpl; repeat constructor.
  - unfold requestBody. simpl.
    rewrite !lookup_insert_ne by discriminate. rewrite lookup_insert_eq.
    reflexivity.
  - intros fmt. destruct payload. reflexivity.
Qed.

(** X10: [callN8N] rejects exactly when both attempts throw, and then
    always with an instance of [Error]: the error of the fallback attempt
    or, if that was not an [Error], a new one. *)
Theorem rejection_iff_both_attempts_throw {P : Platform} (payload : Payload)
    (t : thrown) :
  (snd (callN8N payload) = inl t
   <-> exists t1 t2 : thrown,
         attempt (normalize_tickers payload) 0 (make_request payload primaryUrl)
         = inl t1
         /\ attempt (normalize_tickers payload) 1 (make_request payload fallbackUrl)
            = inl t2
         /\ t = ThrownError (as_Error t2))
  /\ (snd (callN8N payload) = inl t -> exists e : js_error, t = ThrownError e).
Proof.
  assert (Hiff : snd (callN8N payload) = inl t
                 <-> exists t1 t2 : thrown,
                       attempt (normalize_tickers payload) 0
                         (make_request payload primaryUrl) = inl t1
                       /\ attempt (normalize_tickers payload) 1
                            (make_request payload fallbackUrl) = inl t2
                       /\ t = ThrownError (as_Error t2)).
  { split.
    - intros Hrej. destruct (callN8N_cases payload)
        as [(v & _ & Hc) | [(t1 & v & _ & _ & Hc) | (t1 & t2 & H1 & H2 & Hc)]];
        rewrite Hc in Hrej; simpl in Hrej; try discriminate Hrej.
      injection Hrej as <-. exists t1, t2. auto.
    - intros (t1 & t2 & H1 & H2 & ->).
      rewrite (callN8N_primary_throws payload t1 H1), H2. reflexivity. }
  split; [exact Hiff|].
  intros Hrej. apply Hiff in Hrej. destruct Hrej as (_ & t2 & _ & _ & ->). eauto.
Qed.

Lemma rejection_iff_both_attempts_throw_witness :
  snd (callN8N (P := server (http 500 "boom") (http 200 "[]")) (sample_payload "AAA"))
  = inl (ThrownError (NullishAccess "results")).
Proof.
  apply (proj2 (proj1 (rejection_iff_both_attempts_throw
                         (P := server (http 500 "boom") (http 200 "[]"))
                         (sample_payload "AAA") _))).
  exists (ThrownError (Err "HTTP 500: boom")), (ThrownError (NullishAccess "results")).
  repeat split; vm_compute; reflexivity.
Defined.

(** ** The submit handler [run] *)

Lemma run_not_blank {P : Platform} (msg : js_error -> string) (s : SignalUI.State) :
  ~ all_space (SignalUI.input s) ->
  SignalUI.run msg s
  = (fst (callN8N (submitted s)),
     SignalUI.setLoading false
       (match snd (callN8N (submitted s)) with
        | inr res =>
            SignalUI.on_response res
              (SignalUI.setExpanded VNull
                 (SignalUI.setData None
                    (SignalUI.setLoading true
                       (SignalUI.setValErr EmptyString
                          (SignalUI.setError EmptyString s)))))
        | inl e =>
            SignalUI.on_rejection msg e
              (SignalUI.setExpanded VNull
                 (SignalUI.setData None
                    (SignalUI.setLoading true
                       (SignalUI.setValErr EmptyString
                          (SignalUI.setError EmptyString s)))))
        end)).
Proof.
  intros Hin. unfold SignalUI.run.
  destruct (JsString.trim (SignalUI.input s)) as [|c r] eqn:Ht.
  - exfalso. apply Hin, trim_empty_iff, Ht.
  - simpl. fold (submitted s). destruct (callN8N (submitted s)). reflexivity.
Qed.

(** X11: when the ticker input is empty or only white space, [run] sends
    no request; it clears the error, sets the validation message, and
    leaves the loading flag, the report on display, the expanded row and
    the toast as they were. *)
Theorem blank_input_sends_nothing {P : Platform} (msg : js_error -> string)
    (s : SignalUI.State) :
  all_space (SignalUI.input s) ->
  fst (SignalUI.run msg s) = []
  /\ SignalUI.valErr (snd (SignalUI.run msg s)) = "Please enter at least one ticker"
  /\ SignalUI.error (snd (SignalUI.run msg s)) = EmptyString
  /\ SignalUI.loading (snd (SignalUI.run msg s)) = SignalUI.loading s
  /\ SignalUI.data (snd (SignalUI.run msg s)) = SignalUI.data s
  /\ SignalUI.expanded (snd (SignalUI.run msg s)) = SignalUI.expanded s
  /\ SignalUI.toast (snd (SignalUI.run msg s)) = SignalUI.toast s
  /\ same_form s (snd (SignalUI.run msg s)).
Proof.
  intros Hin. apply trim_empty_iff in Hin. unfold SignalUI.run. rewrite Hin.
  simpl. unfold same_form. simpl. repeat split; reflexivity.
Qed.

Lemma blank_input_sends_nothing_witness :
  fst (SignalUI.run (P := server (http 200 report_body_text) unreachable)
         (fun _ => "TypeError") (SignalUI.setInput "   " SignalUI.initial)) = []
  /\ SignalUI.valErr
       (snd (SignalUI.run (P := server (http 200 report_body_text) unreachable)
               (fun _ => "TypeError") (SignalUI.setInput "   " SignalUI.initial)))
     = "Please enter at least one ticker".
Proof.
  destruct (blank_input_sends_nothing
              (P := server (http 200 report_body_text) unreachable)
              (fun _ => "TypeError") (SignalUI.setInput "   " SignalUI.initial))
    as (H1 & H2 & _).
  { repeat constructor. }
  split; [exact H1|exact H2].
Defined.

Lemma on_response_keeps {P : Platform} (res : value) (s : SignalUI.State) :
  SignalUI.loading (SignalUI.on_response res s) = SignalUI.loading s
  /\ SignalUI.error (SignalUI.on_response res s) = SignalUI.error s
  /\ SignalUI.valErr (SignalUI.on_response res s) = SignalUI.valErr s
  /\ SignalUI.toast (SignalUI.on_response res s) = SignalUI.toast s
  /\ same_form s (SignalUI.on_response res s).
Proof.
  unfold SignalUI.on_response, same_form.
  destruct (truthy (get_opt "results" res));
    [destruct (truthy (index0_opt (get_opt "results" res)))|];
    simpl; repeat split; reflexivity.
Qed.

(** X12: when the ticker input is not blank, [run] sends the requests of
    one [callN8N] call, one or two, and finishes with the loading flag off,
    no validation message, and the form as it was. *)
Theorem run_finishes_idle {P : Platform} (msg : js_error -> string)
    (s : SignalUI.State) :
  ~ all_space (SignalUI.input s) ->
  fst (SignalUI.run msg s) = fst (callN8N (submitted s))
  /\ 1 <= length (fst (SignalUI.run msg s)) <= 2
  /\ SignalUI.loading (snd (SignalUI.run msg s)) = false
  /\ SignalUI.valErr (snd (SignalUI.run msg s)) = EmptyString
  /\ same_form s (snd (SignalUI.run msg s)).
Proof.
  intros Hin. rewrite (run_not_blank msg s Hin). simpl.
  split; [reflexivity|]. split.
  - destruct (callN8N_cases (submitted s))
      as [(v & _ & ->) | [(t1 & v & _ & _ & ->) | (t1 & t2 & _ & _ & ->)]];
      simpl; lia.
  - split; [reflexivity|].
    destruct (snd (callN8N (submitted s))) as [e|res].
    + unfold same_form. simpl. repeat split; reflexivity.
    + match goal with
      | |- context [SignalUI.on_response res ?s0] =>
          destruct (on_response_keeps res s0) as (_ & _ & Hv & _ & Hf)
      end.
      unfold same_form in *. simpl in *. rewrite Hv. tauto.
Qed.

Lemma run_finishes_idle_witness :
  length (fst (SignalUI.run (P := server unreachable (http 200 report_body_text))
                 (fun _ => "TypeError") SignalUI.initial)) = 2
  /\ SignalUI.loading
       (snd (SignalUI.run (P := server unreachable (http 200 report_body_text))
               (fun _ => "TypeError") SignalUI.initial)) = false.
Proof.
  destruct (run_finishes_idle (P := server unreachable (http 200 report_body_text))
              (fun _ => "TypeError") SignalUI.initial) as (_ & _ & Hl & _).
  { intros Hs. inversion Hs as [|? ? Hc _]. discriminate Hc. }
  split; [vm_compute; reflexivity|exact Hl].
Defined.

(** X13: when [callN8N] rejects, [run] shows the message of the rejection
    both as the error and as the toast, and leaves no report on display;
    the rejection is always an [Error], so the text for unknown errors is
    never what the handler falls back to. *)
Theorem rejection_is_shown {P : Platform} (msg : js_error -> string)
    (s : SignalUI.State) (t : thrown) :
  ~ all_space (SignalUI.input s) ->
  snd (callN8N (submitted s)) = inl t ->
  exists e : js_error,
    t = ThrownError e
    /\ SignalUI.error (snd (SignalUI.run msg s)) = SignalUI.message msg e
    /\ SignalUI.toast (snd (SignalUI.run msg s)) = Some (SignalUI.message msg e)
    /\ SignalUI.data (snd (SignalUI.run msg s)) = None
    /\ SignalUI.expanded (snd (SignalUI.run msg s)) = VNull
    /\ SignalUI.loading (snd (SignalUI.run msg s)) = false.
Proof.
  intros Hin Hrej.
  destruct (callN8N_rejects_with_Error (submitted s) t Hrej) as (e & ->).
  exists e. rewrite (run_not_blank msg s Hin), Hrej. simpl.
  repeat split; reflexivity.
Qed.

Lemma rejection_is_shown_witness :
  SignalUI.error
    (snd (SignalUI.run (P := server (http 500 "boom") (http 503 EmptyString))
            (fun _ => "TypeError") SignalUI.initial))
  = "HTTP 503: Failed to fetch data"
  /\ SignalUI.data
       (snd (SignalUI.run (P := server (http 500 "boom") (http 503 EmptyString))
               (fun _ => "TypeError") SignalUI.initial)) = None.
Proof.
  destruct (rejection_is_shown (P := server (http 500 "boom") (http 503 EmptyString))
              (fun _ => "TypeError") SignalUI.initial
              (ThrownError (Err "HTTP 503: Failed to fetch data")))
    as (e & He & Herr & _ & Hdata & _).
  { intros Hs. inversion Hs as [|? ? Hc _]. discriminate Hc. }
  { vm_compute. reflexivity. }
  injection He as <-. split; [exact Herr|exact Hdata].
Defined.

(** X14: when [callN8N] resolves with a response whose [results] is a
    non-empty array with a truthy first record, [run] puts the response on
    display and expands the row of the first record's symbol; with an empty
    [results] array the response is displayed and nothing is expanded.  In
    both cases the error is cleared and the toast is left as it was. *)
Theorem response_is_displayed {P : Platform} (msg : js_error -> string)
    (s : SignalUI.State) (res : value) (l : list value) :
  ~ all_space (SignalUI.input s) ->
  snd (callN8N (submitted s)) = inr res ->
  get_opt "results" res = VArr l ->
  SignalUI.data (snd (SignalUI.run msg s)) = Some res
  /\ SignalUI.error (snd (SignalUI.run msg s)) = EmptyString
  /\ SignalUI.toast (snd (SignalUI.run msg s)) = SignalUI.toast s
  /\ SignalUI.loading (snd (SignalUI.run msg s)) = false
  /\ (forall (r0 : value) (rest : list value),
        l = r0 :: rest -> truthy r0 = true ->
        SignalUI.expanded (snd (SignalUI.run msg s)) = get_opt "symbol" r0)
  /\ (l = [] -> SignalUI.expanded (snd (SignalUI.run msg s)) = VNull).
Proof.
  intros Hin Hres Hl. rewrite (run_not_blank msg s Hin), Hres.
  unfold SignalUI.on_response. rewrite Hl. simpl truthy. cbv iota.
  destruct l as [|r0 rest].
  - simpl. repeat split; try reflexivity. intros r0 rest Hc. discriminate Hc.
  - simpl index0_opt. change (first_element (r0 :: rest)) with r0.
    destruct (truthy r0) eqn:Hr0; simpl; repeat split; try reflexivity;
      try (intros Hc; discriminate Hc).
    + intros r1 rest' [= <- _] _. reflexivity.
    + intros r1 rest' [= <- _] Hc. congruence.
Qed.

Lemma response_is_displayed_witness :
  SignalUI.expanded
    (snd (SignalUI.run (P := server (http 200 report_body_text) unreachable)
            (fun _ => "TypeError") SignalUI.initial))
  = VStr "AAA.NS"
  /\ SignalUI.error
       (snd (SignalUI.run (P := server (http 200 report_body_text) unreachable)
               (fun _ => "TypeError") SignalUI.initial)) = EmptyString.
Proof.
  assert (Hres : snd (callN8N (P := server (http 200 report_body_text) unreachable)
                        (submitted SignalUI.initial))
                 = inr (VObj (<["results" :=
                                  VArr [mark_invalid (VObj unpriced_record)
                                          (VStr invalid_price_reason);
                                        VObj priced_record]]> sample_report)))
    by (vm_compute; reflexivity).
  assert (Hin : ~ all_space (SignalUI.input SignalUI.initial)).
  { intros Hs. inversion Hs as [|? ? Hc _]. discriminate Hc. }
  assert (Hl : get_opt "results"
                 (VObj (<["results" :=
                            VArr [mark_invalid (VObj unpriced_record)
                                    (VStr invalid_price_reason);
                                  VObj priced_record]]> sample_report))
               = VArr [mark_invalid (VObj unpriced_record)
                         (VStr invalid_price_reason);
                       VObj priced_record])
    by (vm_compute; reflexivity).
  destruct (response_is_displayed (fun _ => "TypeError") SignalUI.initial _ _
              Hin Hres Hl) as (_ & Herr & _ & _ & Hexp & _).
  split; [|exact Herr].
  rewrite (Hexp _ _ eq_refl eq_refl). vm_compute. reflexivity.
Defined.

Lemma handle_parsed_object_without_results {P : Platform} (tk : string)
    (m : gmap string value) :
  truthy (default VUndefined (m !! "results")) = false ->
  handle_parsed tk (VObj m) = inr (VObj m).
Proof.
  intros Hm. unfold handle_parsed, normal_response. simpl. rewrite Hm.
  reflexivity.
Qed.

(** X15: when the primary endpoint answers 2xx with an object that has no
    truthy [results] (a flat record, or a bare [{"error": ...}]), [run]
    sends that one request and ends with no report on display and no error
    message: the answer is dropped silently. *)
Theorem answer_without_results_is_dropped {P : Platform}
    (msg : js_error -> string) (s : SignalUI.State) (m : gmap string value) :
  ~ all_space (SignalUI.input s) ->
  answers 0 (make_request (submitted s) primaryUrl) (VObj m) ->
  truthy (default VUndefined (m !! "results")) = false ->
  fst (SignalUI.run msg s) = [make_request (submitted s) primaryUrl]
  /\ SignalUI.data (snd (SignalUI.run msg s)) = None
  /\ SignalUI.expanded (snd (SignalUI.run msg s)) = VNull
  /\ SignalUI.error (snd (SignalUI.run msg s)) = EmptyString
  /\ SignalUI.valErr (snd (SignalUI.run msg s)) = EmptyString
  /\ SignalUI.toast (snd (SignalUI.run msg s)) = SignalUI.toast s
  /\ SignalUI.loading (snd (SignalUI.run msg s)) = false.
Proof.
  intros Hin Hans Hm.
  assert (Hcall : callN8N (submitted s)
                  = ([make_request (submitted s) primaryUrl], inr (VObj m))).
  { apply callN8N_primary_returns. rewrite (answers_attempt _ _ _ _ Hans).
    apply handle_parsed_object_without_results, Hm. }
  rewrite (run_not_blank msg s Hin), Hcall. simpl.
  unfold SignalUI.on_response. simpl. rewrite Hm. simpl.
  repeat split; reflexivity.
Qed.

Lemma answer_without_results_is_dropped_witness :
  SignalUI.data
    (snd (SignalUI.run (P := flat_server) (fun _ => "TypeError") SignalUI.initial))
  = None
  /\ SignalUI.error
       (snd (SignalUI.run (P := flat_server) (fun _ => "TypeError") SignalUI.initial))
     = EmptyString.
Proof.
  destruct (answer_without_results_is_dropped (P := flat_server)
              (fun _ => "TypeError") SignalUI.initial priced_record)
    as (_ & Hd & _ & He & _).
  { intros Hs. inversion Hs as [|? ? Hc _]. discriminate Hc. }
  { eexists _, flat_body_text. repeat split; vm_compute; reflexivity. }
  { vm_compute. reflexivity. }
  split; [exact Hd|exact He].
Defined.

(** ** The earliest revision *)

(** X16: the shape normalisation of the earliest revision throws only on a
    body that is [null] (or [undefined]); every other body, arrays and
    primitives included, is turned into a value with a truthy [results]. *)
Theorem earliest_shape_always_has_results (data : value) :
  (forall t : thrown,
     Rev0.normalize_shape data = inl t
     <-> nullish data = true /\ t = ThrownError (NullishAccess "results"))
  /\ (forall v : value,
        Rev0.normalize_shape data = inr v -> truthy (get_opt "results" v) = true).
Proof.
  split.
  - intros t. unfold Rev0.normalize_shape.
    destruct data as [| | | | |l|m]; simpl;
      try (split; [intros [= <-]; auto|intros [_ ->]; reflexivity]);
      try (split; [discriminate|intros [Hc _]; discriminate Hc]).
    + destruct (truthy (get_opt "results" (first_element l)));
        (split; [discriminate|intros [Hc _]; discriminate Hc]).
    + destruct (truthy (default VUndefined (m !! "results")));
        (split; [discriminate|intros [Hc _]; discriminate Hc]).
  - intros v. unfold Rev0.normalize_shape.
    destruct data as [| | | | |l|m]; simpl; try discriminate;
      try (intros [= <-]; reflexivity).
    + destruct (truthy (get_opt "results" (first_element l))) eqn:Hr;
        intros [= <-]; [exact Hr|reflexivity].
    + destruct (truthy (default VUndefined (m !! "results"))) eqn:Hr;
        intros [= <-]; [exact Hr|reflexivity].
Qed.

Lemma earliest_validate_record_error {P : Platform}
    (m : gmap string value) (e : value) :
  m !! "error" = Some e -> truthy e = true ->
  Rev0Call.validate_record (VObj m)
  = inr (mark_invalid (VObj m) (js_or (default VUndefined (m !! "details")) e)).
Proof.
  intros He Ht. unfold Rev0Call.validate_record. simpl. rewrite He. simpl.
  rewrite Ht. reflexivity.
Qed.

Lemma earliest_validate_record_plain {P : Platform} (r : value) :
  nullish r = false ->
  truthy (get_opt "error" r) = false ->
  truthy (Rev0Call.price_meta r) = false ->
  Rev0Call.validate_record r = inr r.
Proof.
  intros Hn He Hm. unfold Rev0Call.validate_record.
  assert (Hg : get "error" r = inr (get_opt "error" r))
    by (destruct r; try discriminate Hn; reflexivity).
  rewrite Hg. simpl. rewrite He, Hm. reflexivity.
Qed.

(** X17: in the earliest revision an error array is not expanded into one
    record per ticker: the element that carries the error is itself
    returned, flagged, as the only record, with its [details] (if truthy)
    or else its [error] as the reason. *)
Theorem earliest_error_array_is_one_record {P : Platform}
    (m : gmap string value) (e : value) :
  m !! "error" = Some e -> truthy e = true ->
  truthy (default VUndefined (m !! "results")) = false ->
  Rev0Call.handle_data (VArr [VObj m])
  = inr (VObj (<["results" :=
                   VArr [mark_invalid (VObj m)
                           (js_or (default VUndefined (m !! "details")) e)]]> ∅)).
Proof.
  intros He Ht Hr. unfold Rev0Call.handle_data, Rev0.normalize_shape. simpl.
  rewrite Hr. simpl. unfold Rev0Call.validate. simpl.
  rewrite lookup_insert_eq. simpl.
  rewrite (earliest_validate_record_error m e He Ht). simpl.
  rewrite insert_insert_eq. reflexivity.
Qed.

Lemma earliest_error_array_is_one_record_witness :
  exists r : value,
    Rev0Call.handle_data (P := offline) error_body
    = inr (VObj (<["results" := VArr [r]]> ∅))
    /\ get_opt "invalidReason" r = VStr "bad ticker"
    /\ get_opt "isInvalid" r = VBool true.
Proof.
  eexists. split.
  - apply (earliest_error_array_is_one_record (P := offline)
             (<["error" := VStr "bad ticker"]> ∅) (VStr "bad ticker"));
      vm_compute; reflexivity.
  - split; vm_compute; reflexivity.
Defined.

(** X18: the earliest revision has no price check: a record without a
    truthy [error] and without price metadata is returned unchanged
    whatever its price, where the current revision flags it when the price
    is falsy. *)
Theorem earliest_revision_has_no_price_check {P : Platform}
    (m : gmap string value) :
  truthy (default VUndefined (m !! "error")) = false ->
  truthy (Rev0Call.price_meta (VObj m)) = false ->
  Rev0Call.validate_record (VObj m) = inr (VObj m)
  /\ (truthy (default VUndefined (m !! "current_price")) = false ->
      validate_record (VObj m)
      = inr (mark_invalid (VObj m) (VStr invalid_price_reason))).
Proof.
  intros He Hm. split.
  - apply earliest_validate_record_plain; [reflexivity|exact He|exact Hm].
  - intros Hp. rewrite (validate_record_falsy_error m He). cbv zeta.
    rewrite Hp. reflexivity.
Qed.

Lemma earliest_revision_has_no_price_check_witness :
  Rev0Call.validate_record (P := offline) (VObj unpriced_record)
  = inr (VObj unpriced_record)
  /\ validate_record (VObj unpriced_record)
     = inr (mark_invalid (VObj unpriced_record) (VStr invalid_price_reason)).
Proof.
  destruct (earliest_revision_has_no_price_check (P := offline) unpriced_record)
    as [H0 H1]; [vm_compute; reflexivity|vm_compute; reflexivity|].
  split; [exact H0|]. apply H1. vm_compute. reflexivity.
Defined.

Lemma validate_record_plain (r : value) :
  nullish r = false ->
  truthy (get_opt "error" r) = false ->
  truthy (get_opt "current_price" r) = true ->
  validate_record r = inr r.
Proof.
  intros Hn He Hp. unfold validate_record.
  assert (Hg : forall k : string, get k r = inr (get_opt k r))
    by (intros k; destruct r; try discriminate Hn; reflexivity).
  rewrite (Hg "error"). simpl. rewrite He. rewrite (Hg "current_price"). simpl.
  rewrite Hp. simpl.
  destruct (strict_eq_zero (get_opt "current_price" r)) eqn:Hz; [|reflexivity].
  apply strict_eq_zero_is_falsy in Hz. congruence.
Qed.

Lemma validate_record_truthy_error (r : value) :
  truthy (get_opt "error" r) = true ->
  validate_record r
  = inr (mark_invalid r (js_or (get_opt "details" r) (get_opt "error" r))).
Proof.
  intros He. destruct r; try discriminate He.
  unfold validate_record. simpl in *. rewrite He. reflexivity.
Qed.

Lemma earliest_validate_record_truthy_error {P : Platform} (r : value) :
  truthy (get_opt "error" r) = true ->
  Rev0Call.validate_record r
  = inr (mark_invalid r (js_or (get_opt "details" r) (get_opt "error" r))).
Proof.
  intros He. destruct r; try discriminate He.
  unfold Rev0Call.validate_record. simpl in *. rewrite He. reflexivity.
Qed.

(** A record on which the two revisions cannot differ: it carries a truthy
    [error], or it has a truthy price and no price metadata. *)
Lemma revisions_agree_on_record {P : Platform} (r : value) :
  truthy (get_opt "error" r) = true
  \/ (nullish r = false
      /\ truthy (get_opt "error" r) = false
      /\ truthy (get_opt "current_price" r) = true
      /\ truthy (Rev0Call.price_meta r) = false) ->
  Rev0Call.validate_record r = validate_record r.
Proof.
  intros [He | (Hn & He & Hp & Hm)].
  - rewrite (validate_record_truthy_error r He).
    apply earliest_validate_record_truthy_error, He.
  - rewrite (validate_record_plain r Hn He Hp).
    apply earliest_validate_record_plain; assumption.
Qed.

Lemma map_result_ext {A B : Type} (f g : A -> result B) (l : list A) :
  Forall (fun x => f x = g x) l -> map_result f l = map_result g l.
Proof.
  induction 1 as [|x l Hx _ IH]; simpl; [reflexivity|].
  rewrite Hx, IH. reflexivity.
Qed.

(** X19: on a body [{results: [...]}] in which every record either
    carries a truthy [error], or has a truthy price and no price metadata,
    the earliest revision and the current one return the same response. *)
Theorem revisions_agree_on_plain_reports {P : Platform} (tk : string)
    (m : gmap string value) (l : list value) :
  m !! "results" = Some (VArr l) ->
  Forall (fun r => truthy (get_opt "error" r) = true
                   \/ (nullish r = false
                       /\ truthy (get_opt "error" r) = false
                       /\ truthy (get_opt "current_price" r) = true
                       /\ truthy (Rev0Call.price_meta r) = false)) l ->
  Rev0Call.handle_data (VObj m) = handle_parsed tk (VObj m).
Proof.
  intros Hm Hall.
  unfold Rev0Call.handle_data, Rev0.normalize_shape, handle_parsed, normal_response,
    Rev0Call.validate.
  simpl. rewrite Hm. simpl. rewrite Hm. simpl.
  rewrite (map_result_ext Rev0Call.validate_record validate_record l);
    [reflexivity|].
  eapply Forall_impl; [exact Hall|]. intros r Hr.
  apply revisions_agree_on_record, Hr.
Qed.

Lemma revisions_agree_on_plain_reports_witness :
  Rev0Call.handle_data (P := offline)
    (VObj (<["results" := VArr [VObj priced_record]]> ∅))
  = handle_parsed (P := offline) "BBB.NS"
      (VObj (<["results" := VArr [VObj priced_record]]> ∅)).
Proof.
  apply (revisions_agree_on_plain_reports (P := offline) "BBB.NS" _
           [VObj priced_record]).
  - vm_compute. reflexivity.
  - constructor; [|constructor]. right. repeat split; vm_compute; reflexivity.
Defined.

(** X20: the earliest revision sends exactly one request, to the local
    webhook, carrying the [format] of the payload as output format; it has
    no fallback: a rejection of [fetch] is passed on as it is, and a
    non-2xx status rejects with "Server error: " and the status, the body
    unread. *)
Theorem earliest_revision_has_no_fallback {P : Platform} (sx : string -> string)
    (payload : Payload) :
  fst (Rev0Call.callN8N sx payload) = [Rev0Call.make_request payload]
  /\ url (Rev0Call.make_request payload)
     = "http://localhost:5678/webhook/signalGenerator"
  /\ get_opt "Output Format" (Rev0Call.n8nPayload payload) = VStr (format payload)
  /\ (forall t : thrown,
        fetch 0 (Rev0Call.make_request payload) = inl t ->
        snd (Rev0Call.callN8N sx payload) = inl t)
  /\ (forall res : response,
        fetch 0 (Rev0Call.make_request payload) = inr res ->
        ok res = false ->
        snd (Rev0Call.callN8N sx payload)
        = inl (ThrownError
                 (Err ("Server error: " +:+ JsString.of_nat (status res))))).
Proof.
  split; [reflexivity|]. split; [reflexivity|]. split; [|split].
  - unfold Rev0Call.n8nPayload. simpl.
    rewrite !lookup_insert_ne by discriminate. rewrite lookup_insert_eq.
    reflexivity.
  - intros t Hf. unfold Rev0Call.callN8N. simpl. rewrite Hf. reflexivity.
  - intros res Hf Hok. unfold Rev0Call.callN8N. simpl. rewrite Hf. simpl.
    rewrite Hok. reflexivity.
Qed.

Lemma earliest_revision_has_no_fallback_witness :
  Rev0Call.callN8N (P := server (http 502 "bad gateway") (http 502 "bad gateway"))
    (fun s => s) (sample_payload "AAA")
  = ([Rev0Call.make_request (P := server (http 502 "bad gateway") (http 502 "bad gateway"))
        (sample_payload "AAA")],
     inl (ThrownError (Err "Server error: 502"))).
Proof.
  destruct (earliest_revision_has_no_fallback
              (P := server (http 502 "bad gateway") (http 502 "bad gateway"))
              (fun s => s) (sample_payload "AAA")) as (Hlog & _ & _ & _ & Hbad).
  specialize (Hbad {| status := 502; text := inr "bad gateway" |} eq_refl eq_refl).
  rewrite (surjective_pairing (Rev0Call.callN8N _ _)), Hlog, Hbad. reflexivity.
Defined.
